(** * copulae: Archimedean construction, empirical copula, Stirling numbers

    A shallow embedding of
      - [copulae/archimedean/abstract.py]  (AbstractArchimedeanCopula),
      - [copulae/empirical/empirical.py]   (EmpiricalCopula),
      - the Stirling-number helpers exercised by [tests/utility/special_func.py].

    Python floats are idealised as real numbers: array arithmetic is exact,
    rounding, overflow and underflow of binary64 are outside the model.  A
    scalar produced by the builtin [float()] keeps the three non-finite
    values, because the constructor compares it with zero.  Functions that
    raise are modelled in an error monad whose failure carries the Python
    exception.  The decorators [reshape_data] and [array_io_mcd], which turn
    the argument into a 2-D array and shape the result, are not among the
    sources: the methods are modelled on 2-D arrays. *)

From Stdlib Require Import Reals Lra Lia ZArith String Ascii Bool List.
From Stdlib Require Import Sorted Permutation.
Import ListNotations.

Open Scope R_scope.

(** ** Python runtime: exceptions and the error monad *)

Module Py.

Inductive exception : Type :=
| ValueError (msg : string)
| TypeError (msg : string)
| AssertionError (msg : string)
| IndexError (msg : string)
| OverflowError (msg : string).

Inductive result (A : Type) : Type :=
| Ok (a : A)
| Raise (e : exception).

Arguments Ok {A} a.
Arguments Raise {A} e.

Definition bind {A B : Type} (c : result A) (k : A -> result B) : result B :=
  match c with
  | Ok a => k a
  | Raise e => Raise e
  end.

(** [assert cond, msg] *)
Definition assert (cond : bool) (msg : string) : result unit :=
  if cond then Ok tt else Raise (AssertionError msg).

(** [if cond: raise e] *)
Definition raise_if (cond : bool) (e : exception) : result unit :=
  if cond then Raise e else Ok tt.

(** Sequencing a list of computations; the first exception wins. *)
Fixpoint mapM {A B : Type} (f : A -> result B) (l : list A) : result (list B) :=
  match l with
  | [] => Ok []
  | x :: t =>
      bind (f x) (fun y => bind (mapM f t) (fun ys => Ok (y :: ys)))
  end.

Definition is_ok {A : Type} (c : result A) : bool :=
  match c with Ok _ => true | Raise _ => false end.

(** Values of the builtin [float] type: the reals plus the non-finite ones. *)
Inductive pyfloat : Type :=
| Fin (r : R)
| PosInf
| NegInf
| NaN.

Definition Rltb (x y : R) : bool := if Rlt_dec x y then true else false.
Definition Rleb (x y : R) : bool := if Rle_dec x y then true else false.
Definition Reqb (x y : R) : bool := if Req_dec_T x y then true else false.

(** [f < 0] on floats: false for NaN. *)
Definition float_lt_zero (f : pyfloat) : bool :=
  match f with
  | Fin r => Rltb r 0
  | NegInf => true
  | PosInf | NaN => false
  end.

(** The Python values a caller may pass for a numeric argument. *)
Inductive pyval : Type :=
| PyFloat (f : pyfloat)
| PyInt (z : Z)
| PyBool (b : bool)
| PyStr (s : string)
| PyNone
| PyList.

(** [str.lower()] on byte strings: only A-Z change. *)
Definition lower_ascii (c : ascii) : ascii :=
  let n := nat_of_ascii c in
  if andb (Nat.leb 65 n) (Nat.leb n 90) then ascii_of_nat (n + 32) else c.

Fixpoint lower (s : string) : string :=
  match s with
  | EmptyString => EmptyString
  | String c t => String (lower_ascii c) (lower t)
  end.

(** [sep.join(items)] *)
Fixpoint join (sep : string) (items : list string) : string :=
  match items with
  | [] => EmptyString
  | [x] => x
  | x :: t => (x ++ sep ++ join sep t)%string
  end.

(** [x in items] for a tuple of strings *)
Definition str_in (x : string) (items : list string) : bool :=
  existsb (String.eqb x) items.

Section Float.

(** The literal parser behind [float(str)]: a builtin of the language,
    [None] where Python raises ValueError. *)
Variable str_to_float : string -> option pyfloat.

(** Integers that round to a finite binary64. *)
Definition int_fits_float (z : Z) : bool :=
  (Z.abs z <? 2 ^ 1024 - 2 ^ 970)%Z.

(** The builtin [float(v)]. *)
Definition float (v : pyval) : result pyfloat :=
  match v with
  | PyFloat f => Ok f
  | PyInt z =>
      if int_fits_float z then Ok (Fin (IZR z))
      else Raise (OverflowError "int too large to convert to float")
  | PyBool b => Ok (Fin (if b then 1 else 0))
  | PyStr s =>
      match str_to_float s with
      | Some f => Ok f
      | None => Raise (ValueError "could not convert string to float")
      end
  | PyNone | PyList =>
      Raise (TypeError "float() argument must be a string or a real number")
  end.

(** A value is numeric when it is a number or a string spelling one. *)
Definition numeric (v : pyval) : bool :=
  match v with
  | PyFloat _ | PyInt _ | PyBool _ => true
  | PyStr s => match str_to_float s with Some _ => true | None => false end
  | PyNone | PyList => false
  end.

End Float.

(** One instance of the literal parser, used to run the model: unsigned
    decimal integer literals, every other string rejected. *)
Fixpoint digits_value (acc : Z) (s : string) : option Z :=
  match s with
  | EmptyString => Some acc
  | String c t =>
      let n := nat_of_ascii c in
      if andb (Nat.leb 48 n) (Nat.leb n 57)
      then digits_value (10 * acc + Z.of_nat (n - 48)) t
      else None
  end.

Definition decimal_literal (s : string) : option pyfloat :=
  match s with
  | EmptyString => None
  | _ => option_map (fun z => Fin (IZR z)) (digits_value 0 s)
  end.

End Py.

Notation "x <- c ;; k" := (Py.bind c (fun x => k))
  (at level 61, c at next level, right associativity).
Notation "c ;;; k" := (Py.bind c (fun _ => k))
  (at level 61, right associativity).

(** ** The numpy arrays the methods work on *)

Module Numpy.
Import Py.

(** A 2-D array of shape [(length rows, ncols)].  The column count is kept
    apart from the rows, as numpy does: an array with no rows still has one. *)
Record Matrix : Type := {
  ncols : nat;
  rows : list (list R)
}.

Definition nrows (m : Matrix) : nat := length (rows m).

(** [m.ndim] *)
Definition ndim (m : Matrix) : nat := 2.

Definition well_shaped (m : Matrix) : Prop :=
  Forall (fun r => length r = ncols m) (rows m).

(** All entries, row by row. *)
Definition entries (m : Matrix) : list R := concat (rows m).

(** [m[:, c]] *)
Definition column (c : nat) (m : Matrix) : list R :=
  map (fun row => nth c row 0) (rows m).

(** Element-wise application of a scalar function. *)
Definition map_matrix (f : R -> R) (m : Matrix) : Matrix :=
  {| ncols := ncols m; rows := map (map f) (rows m) |}.

(** The builtin [sum(xs)]: a left fold that starts from 0. *)
Definition sum (xs : list R) : R := fold_left Rplus xs 0.

(** [np.prod(xs)] *)
Definition prod (xs : list R) : R := fold_left Rmult xs 1.

(** [np.log(x)] on a float: minus infinity at 0, NaN below 0. *)
Definition np_log (r : R) : pyfloat :=
  if Rltb 0 r then Fin (ln r)
  else if Reqb r 0 then NegInf
  else NaN.

(** [np.exp(x)] on a float: 0 at minus infinity. *)
Definition np_exp (f : pyfloat) : pyfloat :=
  match f with
  | Fin r => Fin (exp r)
  | PosInf => PosInf
  | NegInf => Fin 0
  | NaN => NaN
  end.

(** [np.floor(x).astype(int)] *)
Definition floor (x : R) : Z := Int_part x.

(** [col[i]] for an integer index: negative indices count from the end,
    anything outside [-len, len) raises IndexError. *)
Definition take (col : list R) (i : Z) : result R :=
  let n := Z.of_nat (length col) in
  let j := if (i <? 0)%Z then (i + n)%Z else i in
  if andb (0 <=? j)%Z (j <? n)%Z
  then Ok (nth (Z.to_nat j) col 0)
  else Raise (IndexError "index is out of bounds for axis 0").

(** Ascending sort of one column ([argsort] followed by [take_along_axis]). *)
Fixpoint insert_sorted (x : R) (l : list R) : list R :=
  match l with
  | [] => [x]
  | y :: t => if Rle_dec x y then x :: y :: t else y :: insert_sorted x t
  end.

Definition sort (l : list R) : list R := fold_right insert_sorted [] l.

(** The position an in-range index [i] denotes in a sequence of length [n]:
    negative indices count from the end. *)
Definition position (n : nat) (i : Z) : nat :=
  Z.to_nat (if (i <? 0)%Z then (i + Z.of_nat n)%Z else i).

(** [data[i]] for a row index into a 2-D array, with the same wrap-around
    and bounds as [take]. *)
Definition take_row (rows : list (list R)) (i : Z) : result (list R) :=
  let n := Z.of_nat (length rows) in
  let j := if (i <? 0)%Z then (i + n)%Z else i in
  if andb (0 <=? j)%Z (j <? n)%Z
  then Ok (nth (Z.to_nat j) rows [])
  else Raise (IndexError "index is out of bounds for axis 0").

(** [m[i, c]], when the array has such an entry. *)
Definition entry (m : Matrix) (i c : nat) : option R :=
  match nth_error (rows m) i with
  | Some row => nth_error row c
  | None => None
  end.

(** The array whose columns are [cols], each of length [n]. *)
Definition of_columns (n : nat) (cols : list (list R)) : Matrix :=
  {| ncols := length cols;
     rows := map (fun i => map (fun col => nth i col 0) cols) (seq 0 n) |}.

End Numpy.

(** ** copulae/archimedean/abstract.py *)

Module Archimedean.
Import Py Numpy.

(** The attributes an instance holds once [__init__] has returned. *)
Record copula : Type := {
  _theta : pyfloat;
  _dim : Z;
  _name : string
}.

Definition families : list string :=
  ["clayton"; "frank"; "amh"; "gumbel"; "joe"]%string.

Definition unknown_family_msg (family : string) : string :=
  ("Unknown family of Archimedean copula: " ++ family ++ ". Use one of "
     ++ join ", " families)%string.

(** Modelled from the spec: [BaseCopula.__init__(dim, name)] is not among the
    sources; a copula instance is an entity with [dim] and a family tag, so
    the base initialiser records the two and does not fail. *)
Definition BaseCopula_init (theta : pyfloat) (dim : Z) (name : string)
  : result copula :=
  Ok {| _theta := theta; _dim := dim; _name := name |}.

Section Init.

Variable str_to_float : string -> option pyfloat.

(** [try: self._theta = float(theta) except ValueError: raise ValueError(..)]
    Only ValueError is caught; any other exception propagates. *)
Definition convert_theta (theta : pyval) : result pyfloat :=
  match float str_to_float theta with
  | Ok f => Ok f
  | Raise (ValueError _) => Raise (ValueError "theta must be a float")
  | Raise e => Raise e
  end.

(** [AbstractArchimedeanCopula.__init__(self, dim, theta, family)] *)
Definition __init__ (dim : Z) (theta : pyval) (family : string)
  : result copula :=
  let family := lower family in
  th <- convert_theta theta ;;
  raise_if (dim <? 2)%Z (ValueError "dim must be >= 2") ;;;
  raise_if (andb (dim >? 2)%Z (float_lt_zero th))
    (ValueError "theta can only be negative when dim = 2") ;;;
  raise_if (negb (str_in family families))
    (ValueError (unknown_family_msg family)) ;;;
  BaseCopula_init th dim family.

End Init.

(** The abstract methods every family supplies.  They take and return whole
    arrays; [ipsi] and [dipsi] have a [log] flag, [dipsi] a degree. *)
Class Generator : Type := {
  psi : list R -> list R;
  ipsi : Matrix -> bool -> Matrix;
  dipsi : Matrix -> Z -> bool -> Matrix
}.

(** [AbstractArchimedeanCopula.cdf(self, u, log=False)], on a 2-D [u]:
    [cdf = self.psi(self.ipsi(u).sum(1)); return np.log(cdf) if log else cdf].
    The result is an array of floats: [np.log] yields minus infinity where
    the cdf is 0. *)
Definition cdf {G : Generator} (u : Matrix) (log : bool) : list pyfloat :=
  let cdf := psi (map sum (rows (ipsi u false))) in
  if log then map np_log cdf else map Fin cdf.

(** The sum of the entries of one row, as mathematics writes it:
    x1 + (x2 + (... + 0)). *)
Fixpoint row_total (row : list R) : R :=
  match row with
  | [] => 0
  | x :: t => x + row_total t
  end.

(** The generator of the independence copula (Gumbel with theta = 1):
    psi(s) = exp(-s), ipsi(u) = -ln u. *)
Definition independence_generator : Generator := {|
  psi := map (fun s => exp (- s));
  ipsi := fun u log =>
    map_matrix (fun x => if log then ln (- ln x) else - ln x) u;
  dipsi := fun u degree log =>
    map_matrix (fun x =>
      let d := if (degree =? 1)%Z then - / x else / (x * x) in
      if log then ln (Rabs d) else d) u
|}.

End Archimedean.

(** ** Ranks and pseudo-observations (copulae.core) *)

Module Core.
Import Py Numpy.

Inductive ties_method : Type := Average | Min | Max | Dense | Ordinal.

Definition ties_options : list string :=
  ["average"; "min"; "max"; "dense"; "ordinal"]%string.

Definition parse_ties (ties : string) : option ties_method :=
  if String.eqb ties "average" then Some Average
  else if String.eqb ties "min" then Some Min
  else if String.eqb ties "max" then Some Max
  else if String.eqb ties "dense" then Some Dense
  else if String.eqb ties "ordinal" then Some Ordinal
  else None.

Definition count_lt (x : R) (col : list R) : nat :=
  length (filter (fun y => Rltb y x) col).

Definition count_le (x : R) (col : list R) : nat :=
  length (filter (fun y => Rleb y x) col).

Definition count_eq (x : R) (col : list R) : nat :=
  length (filter (fun y => Reqb y x) col).

Definition distinct_lt (x : R) (col : list R) : nat :=
  length (nodup Req_dec_T (filter (fun y => Rltb y x) col)).

(** Modelled from the spec: the rank of the value [x] found at position [i]
    of the column [col], under each of the five tie-breaking policies
    (average: mean of the tied ranks; min: lowest rank of the tie block;
    max: highest; dense: no gaps after a tie block; ordinal: ties broken by
    order of appearance). *)
Definition rank (m : ties_method) (col : list R) (i : nat) (x : R) : R :=
  match m with
  | Average => (INR (1 + count_lt x col) + INR (count_le x col)) / 2
  | Min => INR (1 + count_lt x col)
  | Max => INR (count_le x col)
  | Dense => INR (1 + distinct_lt x col)
  | Ordinal => INR (1 + count_lt x col + count_eq x (firstn i col))
  end.

(** [enumerate(xs)] *)
Definition enumerate {A : Type} (xs : list A) : list (nat * A) :=
  combine (seq 0 (length xs)) xs.

(** Modelled from the spec: [rank_data(obs, 1, ties)] is not among the
    sources.  It assigns ranks within each column of a numeric matrix, each
    column on its own, using one of the five tie-breaking policies; any other
    policy name is an error. *)
Definition rank_data (obs : Matrix) (ties : string) : result Matrix :=
  match parse_ties ties with
  | None => Raise (ValueError "unknown method")
  | Some m =>
      Ok {| ncols := ncols obs;
            rows := map (fun ir =>
                      map (fun cx => rank m (column (fst cx) obs) (fst ir) (snd cx))
                          (enumerate (snd ir)))
                    (enumerate (rows obs)) |}
  end.

(** Modelled from the spec: [pobs(data, ties)] is not among the sources.
    Pseudo-observations are the within-column ranks divided by [n + 1], so
    that they land strictly inside (0, 1). *)
Definition pobs (data : Matrix) (ties : string) : result Matrix :=
  r <- rank_data data ties ;;
  Ok (map_matrix (fun x => x / (INR (nrows data) + 1)) r).

(** Modelled from the spec: [log_sum] is not among the sources; it is the
    log-sum-exp of its argument, ln (exp x1 + ... + exp xn). *)
Definition log_sum_exp (xs : list R) : R := ln (sum (map exp xs)).

(** Modelled from the spec: the unsmoothed branch of [emp_dist_func], the
    plain empirical distribution function: the fraction of reference rows
    dominated componentwise by each query row, with denominator
    [n + offset].  The smoothed branches need the Beta distribution function
    and are not modelled; this instance runs copulas whose smoothing is
    "none". *)
Definition dominated (ref query : list R) : bool :=
  forallb (fun p => Rleb (fst p) (snd p)) (combine ref query).

Definition emp_dist_func_none (u uu : Matrix) (smoothing : string) (offset : R)
  : result (list R) :=
  Ok (map (fun row =>
             INR (length (filter (fun ref => dominated ref row) (rows uu)))
               / (INR (nrows uu) + offset))
          (rows u)).

(** The Beta density at shape parameters that are positive integers, the
    ranks of data without ties:
    (a+b-1)! / ((a-1)! (b-1)!) * x^(a-1) * (1-x)^(b-1). *)
Definition beta_pdf_int (x a b : R) : R :=
  let a' := Z.to_nat (Int_part a) in
  let b' := Z.to_nat (Int_part b) in
  INR (fact (a' + b' - 1)) / (INR (fact (a' - 1)) * INR (fact (b' - 1)))
    * x ^ (a' - 1) * (1 - x) ^ (b' - 1).

Definition beta_logpdf_int (x a b : R) : R := ln (beta_pdf_int x a b).

End Core.

(** ** copulae/empirical/empirical.py *)

Module Empirical.
Import Py Numpy Core.

(** The attributes set by [__init__]. *)
Record EmpiricalCopula : Type := {
  _ties : string;
  _offset : R;
  _name : string;
  _smoothing : string;
  _data : Matrix;
  _dim : nat
}.

Definition smoothing_options : list string :=
  ["none"; "beta"; "checkerboard"]%string.

(** The [smoothing] setter: [None] means "none"; anything outside the three
    options fails the assertion.  Returns the value stored in [_smoothing]. *)
Definition set_smoothing (smoothing : option string) : result string :=
  let smoothing := match smoothing with None => "none"%string | Some s => s end in
  assert (str_in smoothing smoothing_options)
    "Smoothing must be 'none', 'beta' or 'checkerboard'" ;;;
  Ok smoothing.

(** The [ties] setter: [self._ties = value]. *)
Definition set_ties (value : string) : result string := Ok value.

(** Modelled from the spec: [BaseCopula.init_validate] is not among the
    sources; the invariant of a copula instance is [dim >= 2]. *)
Definition init_validate (self : EmpiricalCopula) : result unit :=
  assert (Nat.leb 2 (_dim self)) "Copula must have at least 2 dimensions".

(** [EmpiricalCopula.__init__(self, data, smoothing=None, ties="average",
    offset=0)].  In [assert data.ndim == 2 and data.shape] the shape of a
    2-D array is a tuple of two entries, which is truthy. *)
Definition __init__ (data : Matrix) (smoothing : option string)
    (ties : string) (offset : R) : result EmpiricalCopula :=
  t <- set_ties ties ;;
  s <- set_smoothing smoothing ;;
  assert (Nat.eqb (ndim data) 2) EmptyString ;;;
  let dim := ncols data in
  assert (Nat.ltb 1 dim) "Dimension must be >= 2" ;;;
  let self := {| _ties := t; _offset := offset; _name := "Empirical";
                 _smoothing := s; _data := data; _dim := dim |} in
  init_validate self ;;;
  Ok self.

Section Methods.

(** [copulae.types.EPSILON]: the tolerance of the domain check. *)
Variable EPSILON : R.

(** [emp_dist_func(u, uu, smoothing, offset)] from [.distribution], which
    is not among the sources. *)
Variable emp_dist_func : Matrix -> Matrix -> string -> R -> result (list R).

(** [scipy.stats.beta.pdf(x, a, b)] and [beta.logpdf(x, a, b)] at a scalar. *)
Variable beta_pdf : R -> R -> R -> R.
Variable beta_logpdf : R -> R -> R -> R.

(** [copulae.special.log_sum] *)
Variable log_sum : list R -> R.

(** [np.any(u > 1 + EPSILON) or np.any(u < -EPSILON)] *)
Definition outside_unit_cube (u : Matrix) : bool :=
  orb (existsb (fun x => Rltb (1 + EPSILON) x) (entries u))
      (existsb (fun x => Rltb x (- EPSILON)) (entries u)).

(** What [cdf] does once the domain check has passed. *)
Definition cdf_checked (self : EmpiricalCopula) (u : Matrix) (log : bool)
  : result (list R) :=
  uu <- pobs (_data self) (_ties self) ;;
  cdf <- emp_dist_func u uu (_smoothing self) (_offset self) ;;
  Ok (if log then map ln cdf else cdf).

(** [EmpiricalCopula.cdf(self, u, log=False)] on a 2-D [u]. *)
Definition cdf (self : EmpiricalCopula) (u : Matrix) (log : bool)
  : result (list R) :=
  raise_if (outside_unit_cube u)
    (ValueError "input array must be pseudo observations") ;;;
  cdf_checked self u log.

(** [beta.pdf(row, a=row_rank, b=n + 1 - row_rank)]: element by element
    along the row and the rank vector. *)
Definition beta_pdf_row (n : R) (row row_rank : list R) : list R :=
  map (fun xr => beta_pdf (fst xr) (snd xr) (n + 1 - snd xr))
      (combine row row_rank).

Definition beta_logpdf_row (n : R) (row row_rank : list R) : list R :=
  map (fun xr => beta_logpdf (fst xr) (snd xr) (n + 1 - snd xr))
      (combine row row_rank).

(** The density of the empirical beta copula at one point, in the words of
    the specification: over the rank vectors of the [n] reference rows, the
    product across dimensions of the Beta(rank, n + 1 - rank) densities at
    the coordinates of the point, summed and normalised by [n + offset]. *)
Definition beta_copula_density (n offset : R) (ranks : list (list R))
    (point : list R) : R :=
  sum (map (fun row_rank => prod (beta_pdf_row n point row_rank)) ranks)
    / (n + offset).

(** [EmpiricalCopula.pdf(self, u, log=False)] on a 2-D [u]. *)
Definition pdf (self : EmpiricalCopula) (u : Matrix) (log : bool)
  : result (list R) :=
  assert (String.eqb (_smoothing self) "beta")
    "Empirical Copula only has density (PDF) for 'beta' smoothing" ;;;
  u <- pobs u (_ties self) ;;
  data_rank <- rank_data (_data self) (_ties self) ;;
  let n := INR (nrows (_data self)) in
  if log then
    Ok (map (fun x => x - ln (n + _offset self))
          (map (fun row =>
                  log_sum (map (fun row_rank =>
                                  sum (beta_logpdf_row n row row_rank))
                               (rows data_rank)))
               (rows u)))
  else
    Ok (map (fun x => x / (n + _offset self))
          (map (fun row =>
                  sum (map (fun row_rank =>
                              prod (beta_pdf_row n row row_rank))
                           (rows data_rank)))
               (rows u))).

End Methods.

(** *** The range of binary64

    [pdf] above multiplies and divides exactly.  Binary64 has a smallest
    positive value, 2^-1074: a product or a quotient whose exact value is at
    most half of it in magnitude is returned as zero.  The definitions below
    keep that one effect of the float format (rounding inside the range
    stays exact) for the linear branch of [pdf], where it matters. *)

Definition tiny : R := / 2 ^ 1075.




Section Underflow.

Variable beta_pdf : R -> R -> R -> R.
Variable beta_logpdf : R -> R -> R -> R.
Variable log_sum : list R -> R.



End Underflow.






(** [source = np.take_along_axis(data, data.argsort(axis=0), axis=0)],
    kept as the list of its columns. *)
Definition sorted_columns (data : Matrix) : list (list R) :=
  map (fun c => sort (column c data)) (seq 0 (ncols data)).

(** [source[r, c]] for a vector [r] of row indices and a column number [c]. *)
Definition lookup_column (source : list (list R)) (c : nat) (r : list Z)
  : result (list R) :=
  match nth_error source c with
  | None => Raise (IndexError "index is out of bounds for axis 1")
  | Some col => mapM (take col) r
  end.

(** [EmpiricalCopula.to_marginals(self, u)] *)
Definition to_marginals (self : EmpiricalCopula) (u : Matrix) : result Matrix :=
  let n := nrows (_data self) in
  let index := map (map (fun x => floor (x * INR n))) (rows u) in
  let source := sorted_columns (_data self) in
  cols <- mapM (fun c =>
                  lookup_column source c (map (fun row => nth c row 0%Z) index))
               (seq 0 (ncols u)) ;;
  Ok (of_columns (nrows u) cols).

(** The entry of the sorted column [c] of [data] that the index computed
    from the coordinate [x] denotes. *)
Definition order_statistic (data : Matrix) (c : nat) (x : R) : R :=
  nth (position (nrows data) (floor (x * INR (nrows data))))
      (sort (column c data)) 0.

(** *** [to_marginals] on floats

    [to_marginals] above takes the floor of the exact product.  In the
    source [u * self._data.shape[0]] is a product of floats, rounded to
    binary64 before the floor is taken.  Below, [fl] is that rounding: the
    float returned for an exact result. *)

Section Rounded.

Variable fl : R -> R.

(** [EmpiricalCopula.to_marginals(self, u)] with the rounded product. *)
Definition to_marginals_rounded (self : EmpiricalCopula) (u : Matrix)
  : result Matrix :=
  let n := nrows (_data self) in
  let index := map (map (fun x => floor (fl (x * INR n)))) (rows u) in
  let source := sorted_columns (_data self) in
  cols <- mapM (fun c =>
                  lookup_column source c (map (fun row => nth c row 0%Z) index))
               (seq 0 (ncols u)) ;;
  Ok (of_columns (nrows u) cols).

(** The entry of the sorted column [c] of [data] that the index computed
    from the coordinate [x] denotes, with the rounded product. *)
Definition order_statistic_rounded (data : Matrix) (c : nat) (x : R) : R :=
  nth (position (nrows data) (floor (fl (x * INR (nrows data)))))
      (sort (column c data)) 0.

End Rounded.

(** [data[index]] for a vector [index] of row numbers. *)
Definition take_rows (data : Matrix) (index : list Z) : result Matrix :=
  picked <- mapM (take_row (rows data)) index ;;
  Ok {| ncols := ncols data; rows := picked |}.

Section Random.

(** numpy's global random generator: its state, [np.random.seed(seed)],
    which raises ValueError on a seed outside [0, 2^32 - 1] and otherwise
    gives the seeded state, and [np.random.randint(low, high, size)], which
    returns the draw and leaves the generator in a new state. *)
Variable rng : Type.
Variable np_seed : Z -> result rng.
Variable randint : rng -> Z -> Z -> Z -> result (list Z) * rng.

(** [EmpiricalCopula.random(self, n, seed=None)], run from the generator
    state [state]; the data is an array, so [_format_output] returns its
    argument.  An exception of the seeding leaves the call before anything
    is drawn. *)
Definition random (self : EmpiricalCopula) (n : Z) (seed : option Z)
    (state : rng) : result Matrix * rng :=
  match (match seed with Some s => np_seed s | None => Ok state end) with
  | Raise e => (Raise e, state)
  | Ok state =>
      let draw := randint state 0 (Z.of_nat (nrows (_data self))) n in
      (index <- fst draw ;; take_rows (_data self) index, snd draw)
  end.

End Random.

(** A counter-based generator, used to run the model: the state is a
    counter, seeding sets it and checks the range of the seed as numpy
    does, the draw walks through [low, high). *)
Definition counter_seed (seed : Z) : result Z :=
  if andb (0 <=? seed)%Z (seed <? 2 ^ 32)%Z then Ok seed
  else Raise (ValueError "Seed must be between 0 and 2**32 - 1").

Definition counter_randint (state low high n : Z) : result (list Z) * Z :=
  if andb (low <? high)%Z (0 <=? n)%Z
  then (Ok (map (fun k => (low + (state + Z.of_nat k) mod (high - low))%Z)
              (seq 0 (Z.to_nat n))),
        (state + n)%Z)
  else (Raise (ValueError "low >= high"), state).

(** A two-row, two-column data set without ties and the copulas built on it. *)
Definition sample_data : Matrix :=
  {| ncols := 2; rows := [[10; 20]; [30; 40]] |}.

Definition sample_copula (smoothing : string) : EmpiricalCopula :=
  {| _ties := "average"; _offset := 0; _name := "Empirical";
     _smoothing := smoothing; _data := sample_data; _dim := 2 |}.

(** The machine epsilon of binary64, the value numpy reports. *)
Definition eps64 : R := / 2 ^ 52.

End Empirical.

(** ** copulae/utility/special_func.py, as the spec and its tests describe it *)

Module SpecialFunc.
Import Py.

Open Scope Z_scope.

(** Modelled from the spec: the source of [stirling_first] is not among the
    files, only its tests are.  Unsigned Stirling numbers of the first kind
    (permutations of [n] elements with [k] cycles) by the standard
    recurrence S(n,k) = S(n-1,k-1) + (n-1) * S(n-1,k), on integers. *)
Fixpoint first_kind (n k : nat) {struct n} : Z :=
  match n, k with
  | O, O => 1
  | O, S _ => 0
  | S _, O => 0
  | S n', S k' => first_kind n' k' + Z.of_nat n' * first_kind n' k
  end.

(** Modelled from the spec: Stirling numbers of the second kind (partitions
    of an [n]-set into [k] nonempty subsets), by the recurrence
    S(n,k) = S(n-1,k-1) + k * S(n-1,k). *)
Fixpoint second_kind (n k : nat) {struct n} : Z :=
  match n, k with
  | O, O => 1
  | O, S _ => 0
  | S _, O => 0
  | S n', S k' => second_kind n' k' + Z.of_nat k * second_kind n' k
  end.

Definition in_range (n k : Z) : bool := andb (0 <=? k) (k <=? n).

Definition range_msg : string := "<k> must be in the range of [0, <n>]".

(** Modelled from the spec: [stirling_first(n, k)] on integers fails with a
    value error unless [0 <= k <= n]. *)
Definition stirling_first (n k : Z) : result Z :=
  raise_if (negb (in_range n k)) (ValueError range_msg) ;;;
  Ok (first_kind (Z.to_nat n) (Z.to_nat k)).

(** Modelled from the spec: [stirling_second(n, k)], same validation. *)
Definition stirling_second (n k : Z) : result Z :=
  raise_if (negb (in_range n k)) (ValueError range_msg) ;;;
  Ok (second_kind (Z.to_nat n) (Z.to_nat k)).

(** Modelled from the spec: the full ordered sequence for k = 1..n. *)
Definition stirling_first_all (n : Z) : result (list Z) :=
  mapM (stirling_first n) (map Z.of_nat (seq 1 (Z.to_nat n))).

Definition stirling_second_all (n : Z) : result (list Z) :=
  mapM (stirling_second n) (map Z.of_nat (seq 1 (Z.to_nat n))).

(** The textbook characterisation of the two tables: the numbers of the
    first kind are the coefficients of the rising factorial
    x (x+1) ... (x+n-1), those of the second kind express x^n in the falling
    factorials x (x-1) ... (x-k+1). *)
Fixpoint rising (x : Z) (n : nat) : Z :=
  match n with
  | O => 1
  | S n' => rising x n' * (x + Z.of_nat n')
  end.

Fixpoint falling (x : Z) (k : nat) : Z :=
  match k with
  | O => 1
  | S k' => falling x k' * (x - Z.of_nat k')
  end.

(** f 0 + f 1 + ... + f n *)
Fixpoint sum_upto (f : nat -> Z) (n : nat) : Z :=
  match n with
  | O => f O
  | S n' => sum_upto f n' + f n
  end.

(** The value a call returned, 0 if it raised. *)
Definition value (c : result Z) : Z :=
  match c with Ok v => v | Raise _ => 0 end.

End SpecialFunc.

(** * Properties *)

(** ** The error monad and the runtime *)

Module PyFacts.
Import Py.

Lemma str_in_In (x : string) (items : list string) :
  str_in x items = true <-> In x items.
Proof.
  unfold str_in. rewrite existsb_exists. split.
  - intros (y & Hy & E). apply String.eqb_eq in E. now subst.
  - intros H. exists x. split; [exact H | apply String.eqb_refl].
Qed.

Lemma Rltb_true (x y : R) : Rltb x y = true <-> x < y.
Proof. unfold Rltb. destruct (Rlt_dec x y); split; intros; try easy. Qed.

Lemma Rltb_false (x y : R) : Rltb x y = false <-> y <= x.
Proof.
  unfold Rltb. destruct (Rlt_dec x y); split; intros; try easy; lra.
Qed.

Lemma Rleb_true (x y : R) : Rleb x y = true <-> x <= y.
Proof. unfold Rleb. destruct (Rle_dec x y); split; intros; try easy. Qed.

Lemma Rleb_false (x y : R) : Rleb x y = false <-> y < x.
Proof.
  unfold Rleb. destruct (Rle_dec x y); split; intros; try easy; lra.
Qed.

(** Settles the comparisons between numerals that a goal still holds. *)
Ltac decide_comparisons :=
  repeat match goal with
    | |- context [Rltb ?a ?b] =>
        first [ rewrite (proj2 (Rltb_true a b)) by lra
              | rewrite (proj2 (Rltb_false a b)) by lra ]
    | |- context [Rleb ?a ?b] =>
        first [ rewrite (proj2 (Rleb_true a b)) by lra
              | rewrite (proj2 (Rleb_false a b)) by lra ]
    end.

Lemma Reqb_true (x y : R) : Reqb x y = true <-> x = y.
Proof. unfold Reqb. destruct (Req_dec_T x y); split; intros; try easy. Qed.

(** A sequence of calls raises as soon as one of its calls does, and the
    exception it raises is one that some call raised. *)
Lemma mapM_raises {A B : Type} (f : A -> result B) (P : exception -> Prop)
    (l : list A) (x : A) :
  (forall y e, In y l -> f y = Raise e -> P e) ->
  In x l -> is_ok (f x) = false ->
  exists e, mapM f l = Raise e /\ P e.
Proof.
  induction l as [|a t IH]; intros HP Hin Hx; [destruct Hin|].
  simpl. destruct (f a) as [b|e] eqn:Ea.
  - destruct Hin as [->|Hin]; [rewrite Ea in Hx; discriminate|].
    destruct IH as (e & E & He); auto.
    + intros y e' Hy. apply HP. now right.
    + exists e. simpl. now rewrite E.
  - exists e. split; [reflexivity|]. apply (HP a); [now left | exact Ea].
Qed.

Lemma mapM_ok {A B : Type} (f : A -> result B) (g : A -> B) (l : list A) :
  (forall y, In y l -> f y = Ok (g y)) -> mapM f l = Ok (map g l).
Proof.
  induction l as [|a t IH]; intros H; [reflexivity|].
  simpl. rewrite (H a) by now left. simpl.
  rewrite IH by (intros; apply H; now right). reflexivity.
Qed.

Lemma mapM_raise_inv {A B : Type} (f : A -> result B) (l : list A)
    (e : exception) :
  mapM f l = Raise e -> exists x, In x l /\ f x = Raise e.
Proof.
  induction l as [|a t IH]; simpl; [discriminate|].
  destruct (f a) as [b|e'] eqn:Ea; simpl.
  - destruct (mapM f t) as [ys|e'']; simpl; [discriminate|].
    intros [= ->]. destruct IH as (x & Hx & E); [reflexivity|].
    exists x. split; [now right | exact E].
  - intros [= ->]. exists a. split; [now left | exact Ea].
Qed.

End PyFacts.

(** ** AbstractArchimedeanCopula *)

Module ArchimedeanFacts.
Import Py Numpy Archimedean PyFacts.

Section Construction.

Variable str_to_float : string -> option pyfloat.

Ltac run_init :=
  unfold __init__, bind, raise_if; cbv zeta;
  repeat match goal with
         | H : _ = _ |- _ => rewrite H; cbv beta iota
         end.

Lemma convert_theta_ok (theta : pyval) (th : pyfloat) :
  float str_to_float theta = Ok th ->
  convert_theta str_to_float theta = Ok th.
Proof. unfold convert_theta. now intros ->. Qed.

(** Whatever [float] raises, the conversion step raises too. *)
Lemma convert_theta_raises (theta : pyval) (e : exception) :
  float str_to_float theta = Raise e ->
  exists e', convert_theta str_to_float theta = Raise e'.
Proof.
  unfold convert_theta. intros ->. destruct e; eexists; reflexivity.
Qed.

(** C6.  A theta that is not a number and does not spell one never yields
    an instance: a string is rejected with ValueError 'theta must be a
    float', any other non-numeric value with the TypeError of [float]. *)
Theorem theta_not_numeric_fails (dim : Z) (theta : pyval) (family : string) :
  numeric str_to_float theta = false ->
  (exists s, theta = PyStr s /\
     __init__ str_to_float dim theta family
       = Raise (ValueError "theta must be a float")) \/
  __init__ str_to_float dim theta family =
    Raise (TypeError "float() argument must be a string or a real number").
Proof.
  intros Hnum. destruct theta as [f|z|b|s| |]; simpl in Hnum;
    try discriminate.
  - left. exists s. split; [reflexivity|].
    unfold __init__, convert_theta, float.
    destruct (str_to_float s); [discriminate | reflexivity].
  - right. reflexivity.
  - right. reflexivity.
Qed.

(** No dimension below 2 is accepted, whatever theta is. *)
Lemma dim_below_two_fails (dim : Z) (theta : pyval) (family : string) :
  (dim < 2)%Z -> is_ok (__init__ str_to_float dim theta family) = false.
Proof.
  intros Hdim. destruct (convert_theta str_to_float theta) as [th|e] eqn:E.
  - apply Z.ltb_lt in Hdim. run_init. reflexivity.
  - run_init. reflexivity.
Qed.

(** C5.  No dimension below 2 yields an instance.  With a theta that
    converts to the float [th]: a dimension below 2 is rejected with 'dim
    must be >= 2', a dimension above 2 with [th < 0] is rejected, and
    dimension 2 with a supported family is accepted whatever the sign of
    [th]. *)
Theorem dim_theta_validation (theta : pyval) (family : string) :
  (forall dim, (dim < 2)%Z ->
     is_ok (__init__ str_to_float dim theta family) = false) /\
  (forall th dim, float str_to_float theta = Ok th -> (dim < 2)%Z ->
     __init__ str_to_float dim theta family
       = Raise (ValueError "dim must be >= 2")) /\
  (forall th dim, float str_to_float theta = Ok th -> (dim > 2)%Z ->
     float_lt_zero th = true ->
     __init__ str_to_float dim theta family =
       Raise (ValueError "theta can only be negative when dim = 2")) /\
  (forall th, float str_to_float theta = Ok th ->
     In (lower family) families ->
     __init__ str_to_float 2 theta family =
       Ok {| _theta := th; _dim := 2; _name := lower family |}).
Proof.
  split; [intros dim; apply dim_below_two_fails|].
  repeat split.
  - intros th dim Hth Hdim. apply convert_theta_ok in Hth.
    apply Z.ltb_lt in Hdim. run_init. reflexivity.
  - intros th dim Hth Hdim Hneg. apply convert_theta_ok in Hth.
    assert (E1 : (dim <? 2)%Z = false) by (apply Z.ltb_ge; lia).
    assert (E2 : (dim >? 2)%Z = true) by (apply Z.gtb_lt; lia).
    run_init. reflexivity.
  - intros th Hth Hfam. apply convert_theta_ok in Hth.
    apply str_in_In in Hfam. run_init. reflexivity.
Qed.

(** An unsupported family name never yields an instance; when theta and
    the dimension are valid the error names the family and the valid set. *)
Lemma unknown_family_fails (dim : Z) (theta : pyval) (family : string) :
  ~ In (lower family) families ->
  is_ok (__init__ str_to_float dim theta family) = false /\
  (forall th, float str_to_float theta = Ok th -> (2 <= dim)%Z ->
     dim = 2%Z \/ float_lt_zero th = false ->
     __init__ str_to_float dim theta family =
       Raise (ValueError (unknown_family_msg (lower family)))).
Proof.
  intros Hfam.
  assert (Hin : str_in (lower family) families = false).
  { destruct (str_in (lower family) families) eqn:E; [|reflexivity].
    apply str_in_In in E. contradiction. }
  split.
  - destruct (convert_theta str_to_float theta) as [th|e] eqn:Eth;
      [|run_init; reflexivity].
    destruct (dim <? 2)%Z eqn:E1; [run_init; reflexivity|].
    destruct (andb (dim >? 2)%Z (float_lt_zero th)) eqn:E2;
      run_init; reflexivity.
  - intros th Hth Hdim Hsign. apply convert_theta_ok in Hth.
    assert (E1 : (dim <? 2)%Z = false) by (apply Z.ltb_ge; lia).
    assert (E2 : andb (dim >? 2)%Z (float_lt_zero th) = false).
    { destruct Hsign as [->| ->]; [reflexivity | apply andb_false_r]. }
    run_init. reflexivity.
Qed.

End Construction.

Lemma theta_not_numeric_fails_witness :
  __init__ decimal_literal 2 (PyStr "abc") "clayton"
    = Raise (ValueError "theta must be a float").
Proof.
  destruct (theta_not_numeric_fails decimal_literal 2 (PyStr "abc") "clayton")
    as [(s & _ & H)|H].
  - reflexivity.
  - exact H.
  - discriminate H.
Defined.

Lemma minus_one_negative : float_lt_zero (Fin (IZR (-1))) = true.
Proof. simpl. apply Rltb_true. lra. Qed.

(** dim = 1 fails; dim = 3 with theta = -1 fails; dim = 2 with theta = -1
    succeeds. *)
Lemma dim_theta_validation_witness :
  __init__ decimal_literal 1 (PyInt (-1)) "Clayton"
    = Raise (ValueError "dim must be >= 2") /\
  __init__ decimal_literal 3 (PyInt (-1)) "Clayton"
    = Raise (ValueError "theta can only be negative when dim = 2") /\
  __init__ decimal_literal 2 (PyInt (-1)) "Clayton"
    = Ok {| _theta := Fin (-1); _dim := 2; _name := "clayton" |}.
Proof.
  destruct (dim_theta_validation decimal_literal (PyInt (-1)) "Clayton")
    as (_ & H1 & H2 & H3).
  split; [|split].
  - apply (H1 (Fin (IZR (-1)))); [reflexivity | lia].
  - apply (H2 (Fin (IZR (-1)))); [reflexivity | lia | exact minus_one_negative].
  - apply (H3 (Fin (IZR (-1)))); [reflexivity | simpl; tauto].
Defined.

Lemma fold_left_Rplus_acc (l : list R) (a : R) :
  fold_left Rplus l a = a + fold_left Rplus l 0.
Proof.
  revert a. induction l as [|x t IH]; intros a; simpl; [lra|].
  rewrite (IH (a + x)), (IH (0 + x)). lra.
Qed.

(** The builtin left fold computes the mathematical sum of a row. *)
Lemma sum_row_total (row : list R) : sum row = row_total row.
Proof.
  unfold sum. induction row as [|x t IH]; simpl; [reflexivity|].
  rewrite fold_left_Rplus_acc, IH. lra.
Qed.

Lemma np_exp_log (c : R) : 0 <= c -> np_exp (np_log c) = Fin c.
Proof.
  intros Hc. unfold np_log. destruct (Rltb 0 c) eqn:E.
  - apply Rltb_true in E. simpl. now rewrite exp_ln.
  - apply Rltb_false in E. assert (c = 0) by lra. subst c.
    rewrite (proj2 (Reqb_true 0 0) eq_refl). reflexivity.
Qed.

Section Cdf.

Context {G : Generator}.

(** C3.  [cdf(u)] is psi applied to the vector of the row totals of
    ipsi(u): for a generator that acts entry by entry, the value for a row
    is psi of the sum of ipsi over the coordinates of that row.
    [cdf(u, log=True)] is [np.log] of that same vector; and wherever the cdf
    values are not negative, zero included, exponentiating the log result
    gives the linear result back. *)
Theorem cdf_log_consistent (u : Matrix) :
  cdf u false = map Fin (psi (map row_total (rows (ipsi u false)))) /\
  cdf u true = map np_log (psi (map row_total (rows (ipsi u false)))) /\
  (Forall (fun c => 0 <= c) (psi (map row_total (rows (ipsi u false)))) ->
     map np_exp (cdf u true) = cdf u false) /\
  (forall p g : R -> R,
     (forall s, psi s = map p s) ->
     (forall m, ipsi m false = map_matrix g m) ->
     cdf u false
       = map (fun row => Fin (p (row_total (map g row)))) (rows u)).
Proof.
  assert (E : map sum (rows (ipsi u false))
              = map row_total (rows (ipsi u false))).
  { apply map_ext. exact sum_row_total. }
  unfold cdf. rewrite E. split; [reflexivity|]. split; [reflexivity|]. split.
  - intros Hnonneg. rewrite map_map.
    induction Hnonneg as [|c l Hc _ IH]; [reflexivity|].
    simpl. now rewrite IH, np_exp_log.
  - intros p g Hp Hg. rewrite Hg, Hp. unfold map_matrix. simpl.
    now rewrite !map_map.
Qed.

End Cdf.

Lemma independence_psi_nonneg (s : list R) :
  Forall (fun c => 0 <= c) (@psi independence_generator s).
Proof.
  simpl. apply Forall_forall. intros c Hc.
  apply in_map_iff in Hc. destruct Hc as (x & <- & _).
  left. apply exp_pos.
Qed.

Lemma cdf_log_consistent_witness :
  let u := {| ncols := 2; rows := [[1 / 2; 1 / 4]; [1; 1 / 3]] |} in
  map np_exp (@cdf independence_generator u true)
    = @cdf independence_generator u false.
Proof.
  intros u.
  apply (proj1 (proj2 (proj2 (@cdf_log_consistent independence_generator u)))).
  apply independence_psi_nonneg.
Defined.

(** *** Further facts on construction *)

Section ConstructionOutcome.

Variable str_to_float : string -> option pyfloat.

Lemma convert_theta_inv (theta : pyval) (th : pyfloat) :
  convert_theta str_to_float theta = Ok th ->
  float str_to_float theta = Ok th.
Proof.
  unfold convert_theta. destruct (float str_to_float theta) as [f|e].
  - now intros [= ->].
  - destruct e; discriminate.
Qed.

(** X1.  Construction returns an instance exactly when theta converts to a
    float, the dimension is at least 2, theta is not negative unless the
    dimension is 2, and the lower-cased family is one of the five; the
    instance then holds the converted theta, the dimension and the
    lower-cased family name. *)
Theorem init_succeeds_iff (dim : Z) (theta : pyval) (family : string)
    (c : copula) :
  __init__ str_to_float dim theta family = Ok c <->
  exists th,
    float str_to_float theta = Ok th /\
    (2 <= dim)%Z /\
    (dim = 2%Z \/ float_lt_zero th = false) /\
    In (lower family) families /\
    c = {| _theta := th; _dim := dim; _name := lower family |}.
Proof.
  split.
  - unfold __init__, bind, raise_if. cbv zeta.
    destruct (convert_theta str_to_float theta) as [th|e] eqn:Eth;
      [|discriminate].
    destruct (dim <? 2)%Z eqn:E1; [discriminate|].
    destruct (andb (dim >? 2)%Z (float_lt_zero th)) eqn:E2; [discriminate|].
    destruct (str_in (lower family) families) eqn:E3; [|discriminate].
    simpl. unfold BaseCopula_init. intros [= <-].
    exists th. apply convert_theta_inv in Eth. apply Z.ltb_ge in E1.
    apply str_in_In in E3. repeat split; auto.
    apply andb_false_iff in E2. destruct E2 as [E2|E2]; [left|now right].
    destruct (Z.gtb_spec dim 2); [discriminate | lia].
  - intros (th & Hth & Hdim & Hsign & Hfam & ->).
    apply convert_theta_ok in Hth. apply str_in_In in Hfam.
    assert (E1 : (dim <? 2)%Z = false) by (apply Z.ltb_ge; lia).
    assert (E2 : andb (dim >? 2)%Z (float_lt_zero th) = false).
    { destruct Hsign as [->| ->]; [reflexivity | apply andb_false_r]. }
    unfold __init__, bind, raise_if. cbv zeta.
    rewrite Hth. cbv beta iota. rewrite E1, E2, Hfam. reflexivity.
Qed.

(** X2.  A theta that [float] rejects decides the outcome before the
    dimension, the sign and the family are looked at: a ValueError of
    [float] is replaced by ValueError 'theta must be a float', any other
    exception (TypeError, OverflowError) leaves the constructor as it is. *)
Theorem theta_conversion_failure (dim : Z) (theta : pyval) (family : string)
    (e : exception) :
  float str_to_float theta = Raise e ->
  __init__ str_to_float dim theta family
    = Raise (match e with
             | ValueError _ => ValueError "theta must be a float"
             | _ => e
             end).
Proof.
  intros H. unfold __init__, convert_theta. rewrite H.
  destruct e; reflexivity.
Qed.

End ConstructionOutcome.

Lemma init_succeeds_iff_witness :
  __init__ decimal_literal 3 (PyStr "2") "JOE"
    = Ok {| _theta := Fin 2; _dim := 3; _name := "joe" |}.
Proof.
  apply init_succeeds_iff. exists (Fin 2).
  split; [reflexivity|]. split; [lia|]. split.
  - right. simpl. apply Rltb_false. lra.
  - split; [simpl; tauto | reflexivity].
Defined.

(** An integer too large for a float: the OverflowError of [float] is not
    caught. *)
Lemma theta_conversion_failure_witness :
  __init__ decimal_literal 2 (PyInt (2 ^ 1024)) "clayton"
    = Raise (OverflowError "int too large to convert to float").
Proof.
  apply (theta_conversion_failure decimal_literal 2 (PyInt (2 ^ 1024))
           "clayton" (OverflowError "int too large to convert to float")).
  reflexivity.
Defined.

Lemma lower_ascii_idempotent (c : ascii) :
  lower_ascii (lower_ascii c) = lower_ascii c.
Proof. destruct c as [[] [] [] [] [] [] [] []]; reflexivity. Qed.

Lemma lower_idempotent (s : string) : lower (lower s) = lower s.
Proof.
  induction s as [|c t IH]; simpl; [reflexivity|].
  now rewrite lower_ascii_idempotent, IH.
Qed.

(** X3.  The family name counts only up to case: two names with the same
    lower-casing give the same outcome, and constructing again with the
    lower-cased name gives the same outcome too. *)
Theorem family_case_insensitive
    (str_to_float : string -> option pyfloat) (dim : Z) (theta : pyval)
    (family family' : string) :
  (lower family = lower family' ->
     __init__ str_to_float dim theta family
       = __init__ str_to_float dim theta family') /\
  __init__ str_to_float dim theta (lower family)
    = __init__ str_to_float dim theta family.
Proof.
  split.
  - intros H. unfold __init__. cbv zeta. now rewrite H.
  - unfold __init__. cbv zeta. now rewrite lower_idempotent.
Qed.

Lemma family_case_insensitive_witness :
  __init__ decimal_literal 2 (PyInt 1) "GuMbEl"
    = __init__ decimal_literal 2 (PyInt 1) "gUmBeL".
Proof.
  exact (proj1 (family_case_insensitive decimal_literal 2 (PyInt 1)
                  "GuMbEl" "gUmBeL") eq_refl).
Defined.

(** *** Exchangeability of the cdf *)

Lemma sum_Permutation (l l' : list R) :
  Permutation l l' -> sum l = sum l'.
Proof.
  unfold sum. induction 1 as [|x l l' _ IH|x y l|l l' l'' _ IH1 _ IH2].
  - reflexivity.
  - simpl. rewrite (fold_left_Rplus_acc l), (fold_left_Rplus_acc l'), IH.
    reflexivity.
  - simpl. f_equal. lra.
  - now rewrite IH1.
Qed.

(** X4.  When the inverse generator acts entry by entry, the cdf does not
    depend on the order of the coordinates inside a row: permuting the
    entries of each row leaves [cdf(u, log)] unchanged. *)
Theorem cdf_exchangeable {G : Generator} (g : R -> R) (u u' : Matrix)
    (log : bool) :
  (forall m, ipsi m false = map_matrix g m) ->
  Forall2 (@Permutation R) (rows u) (rows u') ->
  cdf u' log = cdf u log.
Proof.
  intros Hg Hperm. unfold cdf. rewrite !Hg. unfold map_matrix. simpl.
  assert (E : map sum (map (map g) (rows u'))
              = map sum (map (map g) (rows u))).
  { induction Hperm as [|r r' t t' Hr _ IH]; [reflexivity|].
    simpl. rewrite IH. f_equal.
    apply sum_Permutation. apply Permutation_map. now symmetry. }
  now rewrite E.
Qed.

Lemma cdf_exchangeable_witness :
  @cdf independence_generator
     {| ncols := 3; rows := [[1 / 4; 1 / 2; 1 / 3]] |} false
  = @cdf independence_generator
     {| ncols := 3; rows := [[1 / 2; 1 / 3; 1 / 4]] |} false.
Proof.
  apply (@cdf_exchangeable independence_generator (fun x => - ln x)).
  - reflexivity.
  - simpl. constructor; [|constructor].
    apply Permutation_sym.
    apply (Permutation_cons_app [1 / 2; 1 / 3] [] (1 / 4)).
    rewrite app_nil_r. apply Permutation_refl.
Defined.

End ArchimedeanFacts.

(** ** Sums, products, ranks and pseudo-observations *)

Module CoreFacts.
Import Py Numpy Core PyFacts.

Lemma fold_left_Rplus (l : list R) (a : R) :
  fold_left Rplus l a = a + fold_left Rplus l 0.
Proof.
  revert a. induction l as [|x t IH]; intros a; simpl; [lra|].
  rewrite (IH (a + x)), (IH (0 + x)). lra.
Qed.

Lemma fold_left_Rmult (l : list R) (a : R) :
  fold_left Rmult l a = a * fold_left Rmult l 1.
Proof.
  revert a. induction l as [|x t IH]; intros a; simpl; [lra|].
  rewrite (IH (a * x)), (IH (1 * x)). lra.
Qed.

Lemma sum_nil : sum [] = 0.
Proof. reflexivity. Qed.

Lemma sum_cons (x : R) (l : list R) : sum (x :: l) = x + sum l.
Proof. unfold sum. simpl. rewrite fold_left_Rplus. lra. Qed.

Lemma prod_nil : prod [] = 1.
Proof. reflexivity. Qed.

Lemma prod_cons (x : R) (l : list R) : prod (x :: l) = x * prod l.
Proof. unfold prod. simpl. rewrite fold_left_Rmult. lra. Qed.





(** *** Positions in [enumerate] *)

Lemma in_combine_seq {A : Type} (l : list A) (s i : nat) (x d : A) :
  In (i, x) (combine (seq s (length l)) l) ->
  (s <= i < s + length l)%nat /\ nth (i - s) l d = x.
Proof.
  revert s. induction l as [|y t IH]; intros s; simpl; [tauto|].
  intros [[= <- <-]|H].
  - split; [lia|]. now rewrite Nat.sub_diag.
  - apply IH in H. destruct H as (Hi & Hx). split; [lia|].
    replace (i - s)%nat with (S (i - S s)) by lia. exact Hx.
Qed.

Lemma enumerate_In {A : Type} (l : list A) (i : nat) (x d : A) :
  In (i, x) (enumerate l) -> (i < length l)%nat /\ nth i l d = x.
Proof.
  intros H. apply in_combine_seq with (d := d) in H.
  rewrite Nat.sub_0_r in H. destruct H as (Hi & Hx). split; [lia | exact Hx].
Qed.

Lemma map_combine_seq_const {A B : Type} (l : list A) (s : nat) (b : B) :
  map (fun _ => b) (combine (seq s (length l)) l) = map (fun _ => b) l.
Proof.
  revert s. induction l as [|y t IH]; intros s; simpl; [reflexivity|].
  now rewrite IH.
Qed.

(** *** Bounds on the counts behind the ranks *)

Lemma count_lt_le_length (x : R) (col : list R) :
  (count_lt x col <= length col)%nat.
Proof. apply filter_length_le. Qed.

Lemma count_le_le_length (x : R) (col : list R) :
  (count_le x col <= length col)%nat.
Proof. apply filter_length_le. Qed.

Lemma Rltb_irrefl (x : R) : Rltb x x = false.
Proof. apply Rltb_false. lra. Qed.

Lemma Rleb_refl (x : R) : Rleb x x = true.
Proof. apply Rleb_true. lra. Qed.

(** A value of the column is not below itself. *)
Lemma count_lt_member (x : R) (col : list R) :
  In x col -> (count_lt x col < length col)%nat.
Proof.
  unfold count_lt. induction col as [|y t IH]; simpl; [tauto|].
  intros [->|H].
  - rewrite Rltb_irrefl. pose proof (filter_length_le (fun y => Rltb y x) t).
    lia.
  - specialize (IH H). destruct (Rltb y x); simpl; lia.
Qed.

Lemma count_le_member (x : R) (col : list R) :
  In x col -> (1 <= count_le x col)%nat.
Proof.
  unfold count_le. induction col as [|y t IH]; simpl; [tauto|].
  intros [->|H].
  - rewrite Rleb_refl. simpl. lia.
  - specialize (IH H). destruct (Rleb y x); simpl; lia.
Qed.

Lemma nodup_length_le (l : list R) :
  (length (nodup Req_dec_T l) <= length l)%nat.
Proof.
  induction l as [|y t IH]; simpl; [lia|].
  destruct (in_dec Req_dec_T y t); simpl; lia.
Qed.

Lemma distinct_lt_le_count_lt (x : R) (col : list R) :
  (distinct_lt x col <= count_lt x col)%nat.
Proof. apply nodup_length_le. Qed.

(** The values below [x] and the earlier copies of [x] leave room for the
    occurrence of [x] at position [i]. *)
Lemma ordinal_count (col : list R) (i : nat) :
  (i < length col)%nat ->
  (count_lt (nth i col 0%R) col + count_eq (nth i col 0%R) (firstn i col)
     < length col)%nat.
Proof.
  revert i. induction col as [|y t IH]; intros i Hi; simpl in Hi; [lia|].
  destruct i as [|i].
  - simpl. unfold count_lt, count_eq. simpl. rewrite Rltb_irrefl.
    pose proof (filter_length_le (fun z => Rltb z y) t). lia.
  - assert (Hi' : (i < length t)%nat) by lia.
    specialize (IH i Hi'). simpl nth. simpl firstn.
    unfold count_lt, count_eq in *. simpl.
    set (x := nth i t 0) in *.
    assert (Hex : Rltb y x = true -> Reqb y x = true -> False).
    { intros H1 H2. apply Rltb_true in H1. apply Reqb_true in H2. lra. }
    destruct (Rltb y x), (Reqb y x); simpl; try lia.
    all: exfalso; now apply Hex.
Qed.

(** Every rank lies between 1 and the number of observations. *)
Lemma rank_bounds (m : ties_method) (col : list R) (i : nat) :
  (i < length col)%nat ->
  1 <= rank m col i (nth i col 0) <= INR (length col).
Proof.
  intros Hi. set (x := nth i col 0).
  assert (Hin : In x col) by (apply nth_In; exact Hi).
  pose proof (count_lt_member x col Hin) as H1.
  pose proof (count_le_member x col Hin) as H2.
  pose proof (count_le_le_length x col) as H3.
  pose proof (distinct_lt_le_count_lt x col) as H4.
  pose proof (ordinal_count col i Hi) as H5. fold x in H5.
  assert (B : forall k : nat, (1 <= k <= length col)%nat ->
                1 <= INR k <= INR (length col)).
  { intros k Hk. split.
    - replace 1 with (INR 1) by reflexivity. apply le_INR. lia.
    - apply le_INR. lia. }
  destruct m; unfold rank.
  - assert (Ba := B (1 + count_lt x col)%nat ltac:(lia)).
    assert (Bb := B (count_le x col) ltac:(lia)). lra.
  - apply B. lia.
  - apply B. lia.
  - apply B. lia.
  - apply B. lia.
Qed.

(** The rank of the only value of a one-entry column is 1. *)
Lemma rank_singleton (m : ties_method) (x : R) : rank m [x] 0 x = 1.
Proof.
  destruct m; unfold rank, count_lt, count_le, count_eq, distinct_lt; simpl;
    rewrite ?Rltb_irrefl, ?Rleb_refl; simpl; lra.
Qed.

Lemma column_length (c : nat) (m : Matrix) : length (column c m) = nrows m.
Proof. unfold column, nrows. apply length_map. Qed.

Lemma column_nth (c i : nat) (obs : Matrix) :
  (i < nrows obs)%nat ->
  nth i (column c obs) 0 = nth c (nth i (rows obs) []) 0.
Proof.
  intros Hi. unfold column.
  rewrite nth_indep with (d' := (fun row => nth c row 0) [])
    by (rewrite length_map; exact Hi).
  apply (map_nth (fun row => nth c row 0)).
Qed.

(** The entries of the rank matrix lie in [1, n]. *)
Lemma rank_data_bounds (obs dr : Matrix) (ties : string) :
  rank_data obs ties = Ok dr ->
  forall row r, In row (rows dr) -> In r row ->
    1 <= r <= INR (nrows obs).
Proof.
  unfold rank_data. destruct (parse_ties ties) as [m|]; [|discriminate].
  intros [= <-] row r Hrow Hr. simpl in Hrow.
  apply in_map_iff in Hrow. destruct Hrow as ((i & obs_row) & <- & Hi).
  apply in_map_iff in Hr. destruct Hr as ((c & x) & <- & Hc).
  simpl in *.
  apply enumerate_In with (d := []) in Hi. destruct Hi as (Hi & Erow).
  apply enumerate_In with (d := 0) in Hc. destruct Hc as (Hc & Ex).
  assert (E : nth i (column c obs) 0 = x).
  { rewrite column_nth by exact Hi. now rewrite Erow. }
  rewrite <- E. rewrite <- (column_length c obs).
  apply rank_bounds. now rewrite column_length.
Qed.

(** Pseudo-observations lie strictly inside the unit interval. *)
Lemma pobs_bounds (obs u : Matrix) (ties : string) :
  pobs obs ties = Ok u ->
  forall row x, In row (rows u) -> In x row -> 0 < x < 1.
Proof.
  unfold pobs. destruct (rank_data obs ties) as [dr|] eqn:E; [|discriminate].
  simpl. intros [= <-] row x Hrow Hx. simpl in Hrow.
  apply in_map_iff in Hrow. destruct Hrow as (rrow & <- & Hrrow).
  apply in_map_iff in Hx. destruct Hx as (r & <- & Hr).
  pose proof (rank_data_bounds obs dr ties E rrow r Hrrow Hr) as B.
  assert (Hn : 0 < INR (nrows obs) + 1) by lra.
  split.
  - apply Rdiv_lt_0_compat; lra.
  - apply Rmult_lt_reg_r with (INR (nrows obs) + 1); [exact Hn|].
    unfold Rdiv. rewrite Rmult_assoc, Rinv_l by lra. lra.
Qed.

Lemma rank_data_ok (obs : Matrix) (ties : string) (m : ties_method) :
  parse_ties ties = Some m -> exists dr, rank_data obs ties = Ok dr.
Proof. unfold rank_data. intros ->. eexists; reflexivity. Qed.

Lemma pobs_ok (obs : Matrix) (ties : string) (m : ties_method) :
  parse_ties ties = Some m -> exists u, pobs obs ties = Ok u.
Proof.
  intros H. unfold pobs. destruct (rank_data_ok obs ties m H) as (dr & ->).
  eexists; reflexivity.
Qed.

(** A single row is ranked 1 in every column, so its pseudo-observations are
    all 1/2, whatever the row holds. *)
Lemma pobs_single_row (row : list R) (k : nat) (ties : string)
    (m : ties_method) :
  parse_ties ties = Some m ->
  pobs {| ncols := k; rows := [row] |} ties
    = Ok {| ncols := k; rows := [map (fun _ => 1 / 2) row] |}.
Proof.
  intros Hm. unfold pobs, rank_data. rewrite Hm. simpl.
  unfold map_matrix, nrows. simpl. do 3 f_equal.
  rewrite map_map.
  rewrite <- (map_combine_seq_const row 0 (1 / 2)).
  apply map_ext_in. intros (c & x) Hin. simpl.
  apply enumerate_In with (d := 0) in Hin. destruct Hin as (_ & Ex).
  unfold column. simpl. rewrite Ex, rank_singleton. lra.
Qed.

End CoreFacts.

(** ** EmpiricalCopula *)

Module EmpiricalFacts.
Import Py Numpy Core Empirical PyFacts CoreFacts.

Lemma eps64_nonneg : 0 <= eps64.
Proof.
  unfold eps64. left. apply Rinv_0_lt_compat. apply pow_lt. lra.
Qed.

Lemma init_sample (smoothing : string) :
  In smoothing smoothing_options ->
  __init__ sample_data (Some smoothing) "average" 0
    = Ok (sample_copula smoothing).
Proof.
  intros H. apply str_in_In in H.
  unfold __init__, set_ties, set_smoothing, init_validate, bind, assert.
  rewrite H. reflexivity.
Qed.

Section CdfDomain.

Variable EPSILON : R.
Variable emp_dist_func : Matrix -> Matrix -> string -> R -> result (list R).

Lemma outside_unit_cube_true (u : Matrix) :
  outside_unit_cube EPSILON u = true <->
  exists x, In x (entries u) /\ (x > 1 + EPSILON \/ x < - EPSILON).
Proof.
  unfold outside_unit_cube. rewrite orb_true_iff, !existsb_exists. split.
  - intros [(x & Hx & H)|(x & Hx & H)]; apply Rltb_true in H;
      exists x; split; auto.
  - intros (x & Hx & [H|H]); [left|right]; exists x; split; auto;
      now apply Rltb_true.
Qed.

Lemma inside_unit_cube (u : Matrix) :
  Forall (fun x => - EPSILON <= x <= 1 + EPSILON) (entries u) ->
  outside_unit_cube EPSILON u = false.
Proof.
  intros H. destruct (outside_unit_cube EPSILON u) eqn:E; [|reflexivity].
  apply outside_unit_cube_true in E. destruct E as (x & Hx & Hout).
  rewrite Forall_forall in H. specialize (H x Hx). lra.
Qed.

(** C7.  [cdf] raises the value error as soon as one entry of [u] is above
    [1 + EPSILON] or below [-EPSILON]; with a non-negative tolerance, a
    matrix whose entries are exactly 0 or 1 passes the check, and the call
    then returns what the distribution function returns. *)
Theorem cdf_domain_check (self : EmpiricalCopula) (u : Matrix) (log : bool) :
  ((exists x, In x (entries u) /\ (x > 1 + EPSILON \/ x < - EPSILON)) ->
     cdf EPSILON emp_dist_func self u log
       = Raise (ValueError "input array must be pseudo observations")) /\
  (0 <= EPSILON -> Forall (fun x => x = 0 \/ x = 1) (entries u) ->
     cdf EPSILON emp_dist_func self u log = cdf_checked emp_dist_func self u log
     /\ forall uu c,
          pobs (_data self) (_ties self) = Ok uu ->
          emp_dist_func u uu (_smoothing self) (_offset self) = Ok c ->
          cdf EPSILON emp_dist_func self u log
            = Ok (if log then map ln c else c)).
Proof.
  split.
  - intros H. apply outside_unit_cube_true in H.
    unfold cdf. now rewrite H.
  - intros Heps H01.
    assert (E : cdf EPSILON emp_dist_func self u log
                = cdf_checked emp_dist_func self u log).
    { unfold cdf. rewrite inside_unit_cube; [reflexivity|].
      eapply Forall_impl; [|exact H01]. intros x [-> | ->]; simpl; lra. }
    split; [exact E|].
    intros uu c Huu Hc. rewrite E. unfold cdf_checked.
    rewrite Huu. simpl. rewrite Hc. reflexivity.
Qed.

End CdfDomain.

Lemma cdf_domain_check_witness :
  cdf eps64 emp_dist_func_none (sample_copula "none")
      {| ncols := 2; rows := [[1 / 2; 2]] |} false
    = Raise (ValueError "input array must be pseudo observations") /\
  exists c,
    cdf eps64 emp_dist_func_none (sample_copula "none")
        {| ncols := 2; rows := [[0; 1]; [1; 1]] |} false
      = Ok c.
Proof.
  split.
  - apply cdf_domain_check. exists 2. split; [simpl; tauto|].
    left. pose proof eps64_nonneg as H. unfold eps64 in *.
    assert (Hlt : / 2 ^ 52 < / 1).
    { apply Rinv_lt_contravar.
      - rewrite Rmult_1_l. apply pow_lt. lra.
      - apply Rlt_pow_R1; [lra | lia]. }
    rewrite Rinv_1 in Hlt. lra.
  - destruct (cdf_domain_check eps64 emp_dist_func_none (sample_copula "none")
                {| ncols := 2; rows := [[0; 1]; [1; 1]] |} false)
      as (_ & H).
    destruct H as (_ & H); [exact eps64_nonneg | |].
    + simpl. repeat constructor; tauto.
    + destruct (pobs_ok sample_data "average" Average eq_refl) as (uu & Huu).
      eexists. apply (H uu); [exact Huu | reflexivity].
Defined.

(** C8.  Unless the smoothing mode is "beta", [pdf] fails its assertion,
    whatever the query and the [log] flag. *)
Theorem pdf_requires_beta
    (beta_pdf beta_logpdf : R -> R -> R -> R) (log_sum : list R -> R)
    (self : EmpiricalCopula) (u : Matrix) (log : bool) :
  _smoothing self <> "beta"%string ->
  pdf beta_pdf beta_logpdf log_sum self u log
    = Raise (AssertionError
               "Empirical Copula only has density (PDF) for 'beta' smoothing").
Proof.
  intros H. unfold pdf.
  destruct (String.eqb (_smoothing self) "beta") eqn:E.
  - apply String.eqb_eq in E. contradiction.
  - reflexivity.
Qed.

Lemma pdf_requires_beta_witness :
  pdf beta_pdf_int beta_logpdf_int log_sum_exp (sample_copula "checkerboard")
      {| ncols := 2; rows := [[1 / 2; 1 / 2]] |} false
    = Raise (AssertionError
               "Empirical Copula only has density (PDF) for 'beta' smoothing").
Proof.
  apply pdf_requires_beta. simpl. discriminate.
Defined.

(** *** to_marginals *)

Lemma insert_sorted_length (x : R) (l : list R) :
  length (insert_sorted x l) = S (length l).
Proof.
  induction l as [|y t IH]; simpl; [reflexivity|].
  destruct (Rle_dec x y); simpl; [reflexivity | now rewrite IH].
Qed.

Lemma sort_length (l : list R) : length (sort l) = length l.
Proof.
  induction l as [|x t IH]; simpl; [reflexivity|].
  now rewrite insert_sorted_length, IH.
Qed.

(** Every column of the sorted source has as many entries as the data has
    rows. *)
Lemma sorted_columns_length (data : Matrix) (c : nat) (col : list R) :
  nth_error (sorted_columns data) c = Some col -> length col = nrows data.
Proof.
  unfold sorted_columns. intros H. apply nth_error_In in H.
  apply in_map_iff in H. destruct H as (c' & <- & _).
  now rewrite sort_length, column_length.
Qed.

Lemma floor_INR (n : nat) : floor (1 * INR n) = Z.of_nat n.
Proof. unfold floor. rewrite Rmult_1_l. apply Int_part_INR. Qed.

(** Indexing a column at its own length is out of bounds. *)
Lemma take_at_length (col : list R) :
  is_ok (take col (Z.of_nat (length col))) = false.
Proof.
  unfold take.
  assert (E : (Z.of_nat (length col) <? 0)%Z = false) by (apply Z.ltb_ge; lia).
  rewrite E, Z.ltb_irrefl, andb_false_r. reflexivity.
Qed.

Lemma take_raises_IndexError (col : list R) (i : Z) (e : exception) :
  take col i = Raise e -> exists msg, e = IndexError msg.
Proof.
  unfold take. destruct (andb _ _); [discriminate|].
  intros [= <-]. eexists; reflexivity.
Qed.

Lemma lookup_column_raises_IndexError
    (source : list (list R)) (c : nat) (r : list Z) (e : exception) :
  lookup_column source c r = Raise e -> exists msg, e = IndexError msg.
Proof.
  unfold lookup_column. destruct (nth_error source c) as [col|].
  - intros H. apply mapM_raise_inv in H. destruct H as (i & _ & H).
    now apply take_raises_IndexError in H.
  - intros [= <-]. eexists; reflexivity.
Qed.

(** C10.  If some coordinate of [u] is exactly 1, the index computed for it
    is [n], the number of rows of the data, which is past the end of the
    n-row sorted source: [to_marginals] raises IndexError and returns no
    order statistic. *)
Theorem to_marginals_at_one_fails
    (self : EmpiricalCopula) (u : Matrix) (i c : nat) (row : list R) :
  well_shaped u ->
  nth_error (rows u) i = Some row ->
  nth_error row c = Some 1 ->
  floor (1 * INR (nrows (_data self))) = Z.of_nat (nrows (_data self)) /\
  exists msg, to_marginals self u = Raise (IndexError msg).
Proof.
  intros Hshape Hrow Hone. split; [apply floor_INR|].
  assert (Hc : (c < ncols u)%nat).
  { unfold well_shaped in Hshape. rewrite Forall_forall in Hshape.
    rewrite <- (Hshape row) by (eapply nth_error_In; eassumption).
    apply nth_error_Some. now rewrite Hone. }
  unfold to_marginals.
  set (n := nrows (_data self)).
  set (index := map (map (fun x => floor (x * INR n))) (rows u)).
  set (f := fun c0 => lookup_column (sorted_columns (_data self)) c0
                        (map (fun r => nth c0 r 0%Z) index)).
  destruct (mapM_raises f (fun e => exists msg, e = IndexError msg)
              (seq 0 (ncols u)) c) as (e & E & msg & ->).
  - intros y e _ H. now apply lookup_column_raises_IndexError in H.
  - apply in_seq. lia.
  - unfold f, lookup_column.
    destruct (nth_error (sorted_columns (_data self)) c) as [col|] eqn:Ecol;
      [|reflexivity].
    apply sorted_columns_length in Ecol.
    destruct (mapM_raises (take col) (fun _ => True)
                (map (fun r => nth c r 0%Z) index) (Z.of_nat n))
      as (e & E & _).
    + trivial.
    + apply in_map_iff. exists (map (fun x => floor (x * INR n)) row).
      split.
      * rewrite nth_indep with (d' := floor (1 * INR n)).
        -- rewrite map_nth with (f := fun x => floor (x * INR n)).
           rewrite (nth_error_nth _ _ _ Hone). apply floor_INR.
        -- rewrite length_map. apply nth_error_Some. now rewrite Hone.
      * unfold index. apply in_map. eapply nth_error_In; eassumption.
    + fold n in Ecol. rewrite <- Ecol. apply take_at_length.
    + now rewrite E.
  - exists msg. now rewrite E.
Qed.

Lemma to_marginals_at_one_fails_witness :
  exists msg,
    to_marginals (sample_copula "none")
      {| ncols := 2; rows := [[1 / 4; 1 / 2]; [1 / 2; 1]] |}
    = Raise (IndexError msg).
Proof.
  apply (to_marginals_at_one_fails (sample_copula "none")
           {| ncols := 2; rows := [[1 / 4; 1 / 2]; [1 / 2; 1]] |}
           1 1 [1 / 2; 1]).
  - repeat constructor.
  - reflexivity.
  - reflexivity.
Defined.

(** *** Construction *)

Lemma not_str_in (x : string) (items : list string) :
  ~ In x items -> str_in x items = false.
Proof.
  intros H. destruct (str_in x items) eqn:E; [|reflexivity].
  apply str_in_In in E. contradiction.
Qed.

(** The stored smoothing mode: "none" when the argument is [None]. *)
Lemma set_smoothing_ok (smoothing : option string) :
  let s := match smoothing with None => "none"%string | Some s => s end in
  In s smoothing_options -> set_smoothing smoothing = Ok s.
Proof.
  intros s H. apply str_in_In in H. unfold set_smoothing, bind, assert.
  fold s. now rewrite H.
Qed.

(** The constructor accepts a ties string that names none of the five
    policies: the claim that such a string fails at construction is false. *)
Lemma unrecognized_ties_accepted :
  ~ In "worst"%string ties_options /\
  __init__ sample_data None "worst" 0
    = Ok {| _ties := "worst"; _offset := 0; _name := "Empirical";
            _smoothing := "none"; _data := sample_data; _dim := 2 |}.
Proof.
  split.
  - simpl. intros H. repeat destruct H as [H|H]; try discriminate H. exact H.
  - reflexivity.
Qed.

(** C4, amended.  An unsupported Archimedean family name and an unsupported
    smoothing string never yield an instance (the latter fails the setter's
    assertion); the ties string is stored as given, without validation, so
    it does not decide whether construction succeeds. *)
Theorem unknown_family_or_smoothing_fails :
  (forall str_to_float dim theta family,
     ~ In (lower family) Archimedean.families ->
     is_ok (Archimedean.__init__ str_to_float dim theta family) = false) /\
  (forall data s ties offset,
     ~ In s smoothing_options ->
     __init__ data (Some s) ties offset
       = Raise (AssertionError
                  "Smoothing must be 'none', 'beta' or 'checkerboard'")) /\
  (forall data smoothing ties offset,
     let s := match smoothing with None => "none"%string | Some s => s end in
     In s smoothing_options -> (2 <= ncols data)%nat ->
     __init__ data smoothing ties offset
       = Ok {| _ties := ties; _offset := offset; _name := "Empirical";
               _smoothing := s; _data := data; _dim := ncols data |}).
Proof.
  split; [|split].
  - intros parse dim theta family H.
    now apply ArchimedeanFacts.unknown_family_fails.
  - intros data s ties offset H. apply not_str_in in H.
    unfold __init__, set_ties, set_smoothing, bind, assert. now rewrite H.
  - intros data smoothing ties offset s Hs Hdim.
    unfold __init__, set_ties. cbv beta iota delta [bind].
    rewrite (set_smoothing_ok smoothing Hs). fold s.
    unfold init_validate, assert. cbv beta iota zeta. simpl _dim.
    assert (E1 : Nat.ltb 1 (ncols data) = true) by (apply Nat.ltb_lt; lia).
    assert (E2 : Nat.leb 2 (ncols data) = true) by (apply Nat.leb_le; lia).
    rewrite E1, E2. reflexivity.
Qed.

Lemma unknown_family_or_smoothing_fails_witness :
  is_ok (Archimedean.__init__ decimal_literal 2 (PyInt 1) "Gaussian") = false /\
  __init__ sample_data (Some "Beta"%string) "average" 0
    = Raise (AssertionError
               "Smoothing must be 'none', 'beta' or 'checkerboard'") /\
  __init__ sample_data (Some "beta"%string) "worst" 0
    = Ok {| _ties := "worst"; _offset := 0; _name := "Empirical";
            _smoothing := "beta"; _data := sample_data; _dim := 2 |}.
Proof.
  destruct unknown_family_or_smoothing_fails as (H1 & H2 & H3).
  split; [|split].
  - apply H1. simpl. intros H.
    repeat destruct H as [H|H]; try discriminate H. exact H.
  - apply H2. simpl. intros H.
    repeat destruct H as [H|H]; try discriminate H. exact H.
  - apply (H3 sample_data (Some "beta"%string) "worst"%string 0).
    + simpl. tauto.
    + simpl. lia.
Defined.

(** *** pdf *)


Lemma rank_data_nrows (obs dr : Matrix) (ties : string) :
  rank_data obs ties = Ok dr -> nrows dr = nrows obs.
Proof.
  unfold rank_data. destruct (parse_ties ties); [|discriminate].
  intros [= <-]. unfold nrows, enumerate. simpl.
  rewrite length_map, length_combine, length_seq. lia.
Qed.

Lemma sample_ranks :
  rank_data sample_data "average"
    = Ok {| ncols := 2; rows := [[1; 1]; [2; 2]] |}.
Proof.
  unfold rank_data. simpl parse_ties.
  cbv [enumerate sample_data rows ncols combine seq length map fst snd
       column nth rank count_lt count_le filter].
  decide_comparisons. simpl.
  do 2 f_equal. repeat (f_equal; try lra).
Qed.

Lemma Int_part_of_Z (z : Z) (r : R) : r = IZR z -> Int_part r = z.
Proof. intros ->. symmetry. apply Int_part_spec. lra. Qed.

(** Beta(1, 2) has density 2 (1 - x), Beta(2, 1) has density 2 x. *)
Lemma beta_pdf_int_1_2 (x : R) : beta_pdf_int x 1 (2 + 1 - 1) = 2 * (1 - x).
Proof.
  unfold beta_pdf_int.
  rewrite (Int_part_of_Z 1 1), (Int_part_of_Z 2 (2 + 1 - 1)) by lra.
  simpl. field.
Qed.

Lemma beta_pdf_int_2_1 (x : R) : beta_pdf_int x 2 (2 + 1 - 2) = 2 * x.
Proof.
  unfold beta_pdf_int.
  rewrite (Int_part_of_Z 2 2), (Int_part_of_Z 1 (2 + 1 - 2)) by lra.
  simpl. field.
Qed.

Lemma beta_pdf_int_pos (x a b : R) : 0 < x < 1 -> 0 < beta_pdf_int x a b.
Proof.
  intros Hx. unfold beta_pdf_int.
  repeat apply Rmult_lt_0_compat.
  - apply INR_fact_lt_0.
  - apply Rinv_0_lt_compat. apply Rmult_lt_0_compat; apply INR_fact_lt_0.
  - apply pow_lt. lra.
  - apply pow_lt. lra.
Qed.

Section Density.

Variable beta_pdf : R -> R -> R -> R.
Variable beta_logpdf : R -> R -> R -> R.
Variable log_sum : list R -> R.

(** The linear branch, row by row of the pseudo-observations of [u]. *)
Lemma pdf_linear (self : EmpiricalCopula) (u u' dr : Matrix) :
  _smoothing self = "beta"%string ->
  pobs u (_ties self) = Ok u' ->
  rank_data (_data self) (_ties self) = Ok dr ->
  pdf beta_pdf beta_logpdf log_sum self u false
    = Ok (map (beta_copula_density beta_pdf (INR (nrows (_data self)))
                 (_offset self) (rows dr))
              (rows u')).
Proof.
  intros Hs Hu Hd. unfold pdf. rewrite Hs, Hu, Hd. simpl.
  rewrite map_map. reflexivity.
Qed.

(** The log branch, row by row of the pseudo-observations of [u]. *)
Lemma pdf_log (self : EmpiricalCopula) (u u' dr : Matrix) :
  _smoothing self = "beta"%string ->
  pobs u (_ties self) = Ok u' ->
  rank_data (_data self) (_ties self) = Ok dr ->
  pdf beta_pdf beta_logpdf log_sum self u true
    = Ok (map (fun row =>
                 log_sum
                   (map (fun row_rank =>
                           sum (beta_logpdf_row beta_logpdf
                                  (INR (nrows (_data self))) row row_rank))
                        (rows dr))
                 - ln (INR (nrows (_data self)) + _offset self))
              (rows u')).
Proof.
  intros Hs Hu Hd. unfold pdf. rewrite Hs, Hu, Hd. simpl.
  rewrite map_map. reflexivity.
Qed.

(** With a single query row the density is taken at (1/2, ..., 1/2): the
    coordinates of the row do not reach the Beta densities. *)
Lemma pdf_single_row (self : EmpiricalCopula) (row : list R) (k : nat)
    (m : ties_method) (dr : Matrix) :
  _smoothing self = "beta"%string ->
  parse_ties (_ties self) = Some m ->
  rank_data (_data self) (_ties self) = Ok dr ->
  pdf beta_pdf beta_logpdf log_sum self {| ncols := k; rows := [row] |} false
    = Ok [beta_copula_density beta_pdf (INR (nrows (_data self)))
            (_offset self) (rows dr) (map (fun _ => 1 / 2) row)].
Proof.
  intros Hs Hm Hd.
  rewrite (pdf_linear self _ _ dr Hs (pobs_single_row row k _ m Hm) Hd).
  reflexivity.
Qed.

(** What [beta.logpdf] and [log_sum] are taken to satisfy: the log-density
    is the logarithm of the density where the density is positive, and
    [log_sum] is the log-sum-exp. *)
Hypothesis beta_logpdf_ln :
  forall x a b, 0 < beta_pdf x a b -> beta_logpdf x a b = ln (beta_pdf x a b).
Hypothesis log_sum_spec :
  forall xs, log_sum xs = ln (sum (map exp xs)).




End Density.

(** C1.  On the two-row sample, the query [(1/5, 9/10)] is answered with
    the density at [(1/2, 1/2)]: with the integer Beta density the call
    returns 1, the same as for the query [(1/2, 1/2)], whereas the density
    at [(1/5, 9/10)] itself is 13/25. *)
Theorem pdf_ignores_single_query_point :
  (forall beta_pdf beta_logpdf log_sum,
     pdf beta_pdf beta_logpdf log_sum (sample_copula "beta")
         {| ncols := 2; rows := [[1 / 5; 9 / 10]] |} false
       = Ok [beta_copula_density beta_pdf 2 0 [[1; 1]; [2; 2]]
               [1 / 2; 1 / 2]]) /\
  pdf beta_pdf_int beta_logpdf_int log_sum_exp (sample_copula "beta")
      {| ncols := 2; rows := [[1 / 5; 9 / 10]] |} false = Ok [1] /\
  pdf beta_pdf_int beta_logpdf_int log_sum_exp (sample_copula "beta")
      {| ncols := 2; rows := [[1 / 2; 1 / 2]] |} false = Ok [1] /\
  beta_copula_density beta_pdf_int 2 0 [[1; 1]; [2; 2]] [1 / 5; 9 / 10]
    = 13 / 25.
Proof.
  assert (G : forall beta_pdf beta_logpdf log_sum row,
            length row = 2%nat ->
            pdf beta_pdf beta_logpdf log_sum (sample_copula "beta")
                {| ncols := 2; rows := [row] |} false
              = Ok [beta_copula_density beta_pdf 2 0 [[1; 1]; [2; 2]]
                      [1 / 2; 1 / 2]]).
  { intros bp bl ls row Hlen.
    rewrite (pdf_single_row bp bl ls (sample_copula "beta") row 2 Average
               _ eq_refl eq_refl sample_ranks).
    destruct row as [|x [|y [|z t]]]; try discriminate Hlen.
    simpl. replace (1 + 1) with 2 by lra. reflexivity. }
  assert (V : forall x y,
            beta_copula_density beta_pdf_int 2 0 [[1; 1]; [2; 2]] [x; y]
              = (2 * (1 - x) * (2 * (1 - y)) + 2 * x * (2 * y)) / 2).
  { intros x y. unfold beta_copula_density, beta_pdf_row. simpl.
    rewrite !sum_cons, !prod_cons, sum_nil, prod_nil.
    rewrite !beta_pdf_int_1_2, !beta_pdf_int_2_1. field. }
  split; [intros; now apply G|].
  split; [rewrite G, V by reflexivity; do 2 f_equal; field|].
  split; [rewrite G, V by reflexivity; do 2 f_equal; field|].
  rewrite V. field.
Qed.

(** *** to_marginals on admissible queries *)

Lemma insert_sorted_Permutation (x : R) (l : list R) :
  Permutation (x :: l) (insert_sorted x l).
Proof.
  induction l as [|y t IH]; simpl; [apply Permutation_refl|].
  destruct (Rle_dec x y); [apply Permutation_refl|].
  eapply Permutation_trans; [apply perm_swap|]. now apply perm_skip.
Qed.

Lemma sort_Permutation (l : list R) : Permutation l (sort l).
Proof.
  induction l as [|x t IH]; simpl; [constructor|].
  eapply Permutation_trans; [|apply insert_sorted_Permutation].
  now apply perm_skip.
Qed.

Lemma sort_In (l : list R) (x : R) : In x (sort l) <-> In x l.
Proof.
  split; apply Permutation_in;
    [apply Permutation_sym|]; apply sort_Permutation.
Qed.

Lemma insert_sorted_StronglySorted (x : R) (l : list R) :
  StronglySorted Rle l -> StronglySorted Rle (insert_sorted x l).
Proof.
  induction 1 as [|y t Ht IH Hy]; simpl.
  - constructor; constructor.
  - destruct (Rle_dec x y) as [Hxy|Hxy].
    + constructor; [now constructor|].
      constructor; [exact Hxy|].
      eapply Forall_impl; [|exact Hy]. intros z Hz. simpl in Hz. lra.
    + constructor; [exact IH|].
      apply Forall_forall. intros z Hz.
      apply (Permutation_in _ (Permutation_sym (insert_sorted_Permutation x t)))
        in Hz.
      destruct Hz as [<-|Hz]; [lra|].
      rewrite Forall_forall in Hy. now apply Hy.
Qed.

Lemma sort_StronglySorted (l : list R) : StronglySorted Rle (sort l).
Proof.
  induction l as [|x t IH]; simpl; [constructor|].
  now apply insert_sorted_StronglySorted.
Qed.

(** In a sorted list, a later position holds a value at least as large. *)
Lemma StronglySorted_nth (l : list R) (i j : nat) :
  StronglySorted Rle l -> (i <= j < length l)%nat ->
  nth i l 0 <= nth j l 0.
Proof.
  intros Hs. revert i j. induction Hs as [|x t Ht IH Hx]; intros i j Hij.
  - simpl in Hij. lia.
  - simpl in Hij. destruct i as [|i], j as [|j]; simpl; try lia; try lra.
    + rewrite Forall_forall in Hx. apply Hx. apply nth_In. lia.
    + apply IH. lia.
Qed.

Lemma floor_bounds (x : R) : IZR (floor x) <= x < IZR (floor x) + 1.
Proof. unfold floor. pose proof (base_Int_part x). lra. Qed.

Lemma floor_mono (x y : R) : x <= y -> (floor x <= floor y)%Z.
Proof.
  intros H. pose proof (floor_bounds x). pose proof (floor_bounds y).
  assert (Hlt : IZR (floor x) < IZR (floor y + 1)) by (rewrite plus_IZR; lra).
  apply lt_IZR in Hlt. lia.
Qed.

Lemma floor_between (x : R) (a b : Z) :
  IZR a <= x < IZR b -> (a <= floor x < b)%Z.
Proof.
  intros H. pose proof (floor_bounds x).
  assert (H1 : IZR a < IZR (floor x + 1)) by (rewrite plus_IZR; lra).
  assert (H2 : IZR (floor x) < IZR b) by lra.
  apply lt_IZR in H1, H2. lia.
Qed.

(** The index computed from a coordinate in [-1, 1) is a valid Python index
    into [n] rows. *)
Lemma floor_index (x : R) (n : nat) :
  (0 < n)%nat -> -1 <= x < 1 ->
  (- Z.of_nat n <= floor (x * INR n) < Z.of_nat n)%Z.
Proof.
  intros Hn Hx. apply floor_between.
  rewrite opp_IZR, <- INR_IZR_INZ.
  assert (0 < INR n) by (apply lt_0_INR; exact Hn). nra.
Qed.

Lemma take_ok (col : list R) (i : Z) :
  (- Z.of_nat (length col) <= i < Z.of_nat (length col))%Z ->
  take col i = Ok (nth (position (length col) i) col 0).
Proof.
  intros H. unfold take, position.
  destruct (i <? 0)%Z eqn:E.
  - apply Z.ltb_lt in E.
    assert (E1 : (0 <=? i + Z.of_nat (length col))%Z = true)
      by (apply Z.leb_le; lia).
    assert (E2 : (i + Z.of_nat (length col) <? Z.of_nat (length col))%Z = true)
      by (apply Z.ltb_lt; lia).
    now rewrite E1, E2.
  - apply Z.ltb_ge in E.
    assert (E1 : (0 <=? i)%Z = true) by (apply Z.leb_le; lia).
    assert (E2 : (i <? Z.of_nat (length col))%Z = true)
      by (apply Z.ltb_lt; lia).
    now rewrite E1, E2.
Qed.

Lemma floor_zero (n : nat) : floor (0 * INR n) = 0%Z.
Proof.
  rewrite Rmult_0_l. unfold floor. symmetry. apply Int_part_spec. lra.
Qed.

Lemma nth_floor_row (n c : nat) (row : list R) :
  nth c (map (fun x => floor (x * INR n)) row) 0%Z
    = floor (nth c row 0 * INR n).
Proof.
  revert c. induction row as [|x t IH]; intros [|c]; simpl;
    auto using eq_sym, floor_zero.
Qed.

Lemma nth_entry_in_range (u : Matrix) (row : list R) (c : nat) (P : R -> Prop) :
  Forall P (entries u) -> P 0 -> In row (rows u) -> P (nth c row 0).
Proof.
  intros Hall H0 Hrow. destruct (Nat.lt_ge_cases c (length row)) as [Hc|Hc].
  - rewrite Forall_forall in Hall. apply Hall. unfold entries.
    apply in_concat. exists row. split; [exact Hrow | now apply nth_In].
  - now rewrite nth_overflow.
Qed.

(** The array [to_marginals] returns on a query whose coordinates lie in
    [-1, 1), column by column. *)
Lemma to_marginals_ok (self : EmpiricalCopula) (u : Matrix) :
  (ncols u <= ncols (_data self))%nat ->
  (0 < nrows (_data self))%nat ->
  Forall (fun x => -1 <= x < 1) (entries u) ->
  to_marginals self u
    = Ok (of_columns (nrows u)
            (map (fun c => map (fun row =>
                                  order_statistic (_data self) c (nth c row 0))
                               (rows u))
                 (seq 0 (ncols u)))).
Proof.
  intros Hcols Hn Hrange. unfold to_marginals.
  set (n := nrows (_data self)) in *.
  rewrite (mapM_ok _ (fun c => map (fun row =>
                                    order_statistic (_data self) c (nth c row 0))
                                 (rows u))); [reflexivity|].
  intros c Hc. apply in_seq in Hc. unfold lookup_column.
  assert (Esrc : nth_error (sorted_columns (_data self)) c
                 = Some (sort (column c (_data self)))).
  { unfold sorted_columns.
    apply (map_nth_error (fun c0 => sort (column c0 (_data self)))).
    rewrite nth_error_seq.
    assert (E : Nat.ltb c (ncols (_data self)) = true)
      by (apply Nat.ltb_lt; lia).
    now rewrite E. }
  rewrite Esrc.
  assert (Elen : length (sort (column c (_data self))) = n)
    by (now rewrite sort_length, column_length).
  rewrite !map_map.
  rewrite (mapM_ok _ (fun i => nth (position n i)
                                 (sort (column c (_data self))) 0)).
  - f_equal. rewrite map_map. apply map_ext. intros row.
    unfold order_statistic. fold n. now rewrite nth_floor_row.
  - intros i Hi. apply in_map_iff in Hi. destruct Hi as (row & <- & Hrow).
    rewrite <- Elen at 1. apply take_ok. rewrite Elen.
    rewrite nth_floor_row.
    apply floor_index; [exact Hn|].
    apply (nth_entry_in_range u row c (fun x => -1 <= x < 1));
      [exact Hrange | lra | exact Hrow].
Qed.

Lemma of_columns_entry (n : nat) (cols : list (list R)) (i c : nat)
    (col : list R) :
  (i < n)%nat -> nth_error cols c = Some col ->
  entry (of_columns n cols) i c = Some (nth i col 0).
Proof.
  intros Hi Hc. unfold entry, of_columns. simpl.
  rewrite (map_nth_error (fun i0 => map (fun col0 => nth i0 col0 0) cols) i
             (seq 0 n) (d := i)).
  - now apply (map_nth_error (fun col0 => nth i col0 0)).
  - rewrite nth_error_seq.
    assert (E : Nat.ltb i n = true) by (apply Nat.ltb_lt; exact Hi).
    now rewrite E.
Qed.

(** Entry by entry: where [u] holds [x], the result holds the order
    statistic that [x] selects. *)
Lemma to_marginals_entry (self : EmpiricalCopula) (u : Matrix) (i c : nat)
    (x : R) :
  well_shaped u ->
  entry u i c = Some x ->
  entry (of_columns (nrows u)
           (map (fun c => map (fun row =>
                                 order_statistic (_data self) c (nth c row 0))
                              (rows u))
                (seq 0 (ncols u)))) i c
    = Some (order_statistic (_data self) c x).
Proof.
  intros Hshape Hx. unfold entry in Hx.
  destruct (nth_error (rows u) i) as [row|] eqn:Erow; [|discriminate].
  assert (Hi : (i < nrows u)%nat).
  { unfold nrows. apply nth_error_Some. now rewrite Erow. }
  assert (Hc : (c < ncols u)%nat).
  { unfold well_shaped in Hshape. rewrite Forall_forall in Hshape.
    rewrite <- (Hshape row) by (eapply nth_error_In; eassumption).
    apply nth_error_Some. now rewrite Hx. }
  rewrite (of_columns_entry _ _ i c
             (map (fun row => order_statistic (_data self) c (nth c row 0))
                  (rows u)) Hi).
  - f_equal.
    rewrite (nth_error_nth _ _ 0
               (map_nth_error
                  (fun row => order_statistic (_data self) c (nth c row 0))
                  i (rows u) Erow)).
    now rewrite (nth_error_nth _ _ 0 Hx).
  - apply (map_nth_error
             (fun c0 => map (fun row =>
                               order_statistic (_data self) c0 (nth c0 row 0))
                            (rows u))).
    rewrite nth_error_seq.
    assert (E : Nat.ltb c (ncols u) = true) by (apply Nat.ltb_lt; exact Hc).
    now rewrite E.
Qed.

Lemma of_columns_shape (n : nat) (cols : list (list R)) :
  nrows (of_columns n cols) = n /\ ncols (of_columns n cols) = length cols /\
  well_shaped (of_columns n cols).
Proof.
  unfold nrows, well_shaped, of_columns. simpl.
  rewrite length_map, length_seq. repeat split.
  apply Forall_forall. intros row Hrow. apply in_map_iff in Hrow.
  destruct Hrow as (i & <- & _). apply length_map.
Qed.

Lemma position_nonneg (n : nat) (i : Z) :
  (0 <= i)%Z -> position n i = Z.to_nat i.
Proof.
  intros H. unfold position.
  assert (E : (i <? 0)%Z = false) by (apply Z.ltb_ge; lia). now rewrite E.
Qed.

Lemma unit_interval_in_range (l : list R) :
  Forall (fun x => 0 <= x < 1) l -> Forall (fun x => -1 <= x < 1) l.
Proof. apply Forall_impl. intros x Hx. lra. Qed.

Lemma entry_In (u : Matrix) (i c : nat) (x : R) :
  entry u i c = Some x -> In x (entries u).
Proof.
  unfold entry, entries.
  destruct (nth_error (rows u) i) as [row|] eqn:E; [|discriminate].
  intros H. apply in_concat. exists row.
  split; eapply nth_error_In; eassumption.
Qed.

(** The order statistic selected by a coordinate of [0, 1) is a value of the
    data column, found at position floor(x * n) of the sorted column. *)
Lemma order_statistic_unit (data : Matrix) (c : nat) (x : R) :
  (0 < nrows data)%nat -> 0 <= x < 1 ->
  order_statistic data c x
    = nth (Z.to_nat (floor (x * INR (nrows data)))) (sort (column c data)) 0
  /\ In (order_statistic data c x) (column c data).
Proof.
  intros Hn Hx. unfold order_statistic.
  assert (Hidx : (0 <= floor (x * INR (nrows data)) < Z.of_nat (nrows data))%Z).
  { apply floor_between. rewrite <- INR_IZR_INZ.
    assert (0 < INR (nrows data)) by (apply lt_0_INR; exact Hn). nra. }
  rewrite position_nonneg by lia. split; [reflexivity|].
  apply sort_In. apply nth_In. rewrite sort_length, column_length. lia.
Qed.

(** X6.  [to_marginals] is monotone within a column: of two coordinates of
    [0, 1) in the same column, the larger one is mapped to a value at least
    as large. *)
Theorem to_marginals_monotone (self : EmpiricalCopula) (u m : Matrix)
    (i i' c : nat) (x x' v v' : R) :
  well_shaped u ->
  (ncols u <= ncols (_data self))%nat ->
  (0 < nrows (_data self))%nat ->
  Forall (fun x => 0 <= x < 1) (entries u) ->
  to_marginals self u = Ok m ->
  entry u i c = Some x -> entry u i' c = Some x' -> x <= x' ->
  entry m i c = Some v -> entry m i' c = Some v' ->
  v <= v'.
Proof.
  intros Hshape Hcols Hn Hrange Hm Hx Hx' Hle Hv Hv'.
  rewrite to_marginals_ok in Hm by auto using unit_interval_in_range.
  injection Hm as <-.
  rewrite (to_marginals_entry self u i c x Hshape Hx) in Hv.
  rewrite (to_marginals_entry self u i' c x' Hshape Hx') in Hv'.
  injection Hv as <-. injection Hv' as <-.
  rewrite Forall_forall in Hrange.
  pose proof (Hrange x (entry_In _ _ _ _ Hx)) as Bx.
  pose proof (Hrange x' (entry_In _ _ _ _ Hx')) as Bx'.
  assert (Hpos : 0 < INR (nrows (_data self))) by (apply lt_0_INR; exact Hn).
  assert (I : forall y, 0 <= y < 1 ->
            (0 <= floor (y * INR (nrows (_data self)))
             < Z.of_nat (nrows (_data self)))%Z).
  { intros y Hy. apply floor_between. rewrite <- INR_IZR_INZ. nra. }
  unfold order_statistic.
  rewrite !position_nonneg by (apply I; assumption).
  apply StronglySorted_nth; [apply sort_StronglySorted|].
  rewrite sort_length, column_length.
  pose proof (I x Bx). pose proof (I x' Bx').
  assert ((floor (x * INR (nrows (_data self)))
           <= floor (x' * INR (nrows (_data self))))%Z)
    by (apply floor_mono; nra).
  lia.
Qed.

Lemma sample_query_result :
  to_marginals (sample_copula "none")
    {| ncols := 2; rows := [[1 / 4; 1 / 2]; [3 / 4; 0]] |}
  = Ok (of_columns 2
          (map (fun c => map (fun row =>
                                order_statistic sample_data c (nth c row 0))
                             [[1 / 4; 1 / 2]; [3 / 4; 0]])
               (seq 0 2))).
Proof.
  apply (to_marginals_ok (sample_copula "none")
           {| ncols := 2; rows := [[1 / 4; 1 / 2]; [3 / 4; 0]] |}).
  - simpl. lia.
  - unfold nrows. simpl. lia.
  - simpl. repeat constructor; lra.
Qed.

Lemma to_marginals_monotone_witness :
  order_statistic sample_data 0 (1 / 4) <= order_statistic sample_data 0 (3 / 4).
Proof.
  eapply (to_marginals_monotone (sample_copula "none")
            {| ncols := 2; rows := [[1 / 4; 1 / 2]; [3 / 4; 0]] |}
            _ 0 1 0 (1 / 4) (3 / 4)).
  - repeat constructor.
  - simpl. lia.
  - unfold nrows. simpl. lia.
  - simpl. repeat constructor; lra.
  - exact sample_query_result.
  - reflexivity.
  - reflexivity.
  - lra.
  - reflexivity.
  - reflexivity.
Defined.

Lemma sorted_column_member (data : Matrix) (c : nat) (y : R) :
  In y (column c data) ->
  exists j, (j < nrows data)%nat /\ nth j (sort (column c data)) 0 = y.
Proof.
  intros H. apply sort_In in H. apply (In_nth _ _ 0) in H.
  destruct H as (j & Hj & E). rewrite sort_length, column_length in Hj.
  now exists j.
Qed.

(** X8.  Against a data set without rows every query that has an entry
    fails: index 0 is already out of bounds, and the call raises
    IndexError. *)
Theorem to_marginals_empty_data (self : EmpiricalCopula) (u : Matrix) :
  nrows (_data self) = 0%nat ->
  (0 < nrows u)%nat -> (0 < ncols u)%nat ->
  exists msg, to_marginals self u = Raise (IndexError msg).
Proof.
  intros Hn Hrows Hcols. unfold to_marginals.
  set (index := map (map (fun x => floor (x * INR (nrows (_data self)))))
                    (rows u)).
  set (f := fun c0 => lookup_column (sorted_columns (_data self)) c0
                        (map (fun r => nth c0 r 0%Z) index)).
  destruct (mapM_raises f (fun e => exists msg, e = IndexError msg)
              (seq 0 (ncols u)) 0%nat) as (e & E & msg & ->).
  - intros y e _ H. now apply lookup_column_raises_IndexError in H.
  - apply in_seq. lia.
  - unfold f, lookup_column.
    destruct (nth_error (sorted_columns (_data self)) 0) as [col|] eqn:Ecol;
      [|reflexivity].
    apply sorted_columns_length in Ecol. rewrite Hn in Ecol.
    destruct col; [|discriminate Ecol].
    unfold index, nrows in *. destruct (rows u) as [|row t]; [simpl in Hrows; lia|].
    simpl. unfold take at 1. simpl.
    destruct (nth 0 (map (fun x => floor (x * INR (length (rows (_data self))))) row) 0%Z
              <? 0)%Z eqn:Eneg.
    + rewrite Z.add_0_r.
      assert (E0 : (0 <=? nth 0 (map (fun x => floor (x * INR (length (rows (_data self))))) row) 0)%Z
                   = false) by (apply Z.leb_gt; now apply Z.ltb_lt).
      now rewrite E0.
    + apply Z.ltb_ge in Eneg.
      assert (E0 : (nth 0 (map (fun x => floor (x * INR (length (rows (_data self))))) row) 0 <? 0)%Z
                   = false) by (apply Z.ltb_ge; exact Eneg).
      now rewrite E0, andb_false_r.
  - exists msg. now rewrite E.
Qed.

Lemma to_marginals_empty_data_witness :
  exists msg,
    to_marginals
      {| _ties := "average"; _offset := 0; _name := "Empirical";
         _smoothing := "none"; _data := {| ncols := 2; rows := [] |};
         _dim := 2 |}
      {| ncols := 2; rows := [[1 / 4; 1 / 2]] |}
    = Raise (IndexError msg).
Proof.
  apply to_marginals_empty_data.
  - reflexivity.
  - unfold nrows. simpl. lia.
  - simpl. lia.
Defined.

Lemma count_lt_Permutation (y : R) (l l' : list R) :
  Permutation l l' -> count_lt y l = count_lt y l'.
Proof.
  unfold count_lt.
  induction 1 as [|x l l' _ IH|x z l|l l' l'' _ IH1 _ IH2]; simpl.
  - reflexivity.
  - destruct (Rltb x y); simpl; now rewrite IH.
  - destruct (Rltb x y), (Rltb z y); reflexivity.
  - now rewrite IH1.
Qed.

Lemma filter_none {A : Type} (f : A -> bool) (l : list A) :
  (forall z, In z l -> f z = false) -> filter f l = [].
Proof.
  induction l as [|a t IH]; intros H; simpl; [reflexivity|].
  rewrite (H a) by now left. apply IH. intros z Hz. apply H. now right.
Qed.

(** In an ascending list, a value sits right after the values below it. *)
Lemma sorted_nth_count_lt (s : list R) (y : R) :
  StronglySorted Rle s -> In y s -> nth (count_lt y s) s 0 = y.
Proof.
  unfold count_lt. induction 1 as [|x t Ht IH Hx]; intros Hin; [destruct Hin|].
  simpl. destruct (Rltb x y) eqn:E.
  - apply Rltb_true in E. simpl. apply IH.
    destruct Hin as [->|Hin]; [lra | exact Hin].
  - apply Rltb_false in E.
    assert (Hxy : x = y).
    { destruct Hin as [->|Hin]; [reflexivity|].
      rewrite Forall_forall in Hx. specialize (Hx y Hin). lra. }
    subst x.
    assert (E0 : filter (fun z => Rltb z y) t = []).
    { apply filter_none. intros z Hz. rewrite Forall_forall in Hx.
      apply Rltb_false. now apply Hx. }
    rewrite E0. reflexivity.
Qed.

(** *** The constructed instance *)

Lemma set_smoothing_inv (smoothing : option string) (s : string) :
  set_smoothing smoothing = Ok s ->
  s = match smoothing with None => "none"%string | Some s' => s' end /\
  In s smoothing_options.
Proof.
  unfold set_smoothing, bind, assert.
  destruct (str_in _ smoothing_options) eqn:E; [|discriminate].
  intros [= <-]. split; [reflexivity | now apply str_in_In].
Qed.

Lemma init_inv (data : Matrix) (smoothing : option string) (ties : string)
    (offset : R) (cop : EmpiricalCopula) :
  __init__ data smoothing ties offset = Ok cop ->
  let s := match smoothing with None => "none"%string | Some s => s end in
  In s smoothing_options /\ (2 <= ncols data)%nat /\
  cop = {| _ties := ties; _offset := offset; _name := "Empirical";
           _smoothing := s; _data := data; _dim := ncols data |}.
Proof.
  unfold __init__, set_ties. cbv beta iota delta [bind].
  destruct (set_smoothing smoothing) as [s0|e] eqn:Es; [|discriminate].
  apply set_smoothing_inv in Es. destruct Es as (-> & Hs).
  unfold init_validate, assert. cbv beta iota zeta. simpl _dim. simpl Nat.eqb.
  cbv iota.
  destruct (Nat.ltb 1 (ncols data)) eqn:E1; [|discriminate].
  destruct (Nat.leb 2 (ncols data)) eqn:E2; [|discriminate].
  intros [= <-]. apply Nat.leb_le in E2. auto.
Qed.

(** X10.  The constructor returns an instance exactly when the smoothing
    mode (with "none" standing for a missing one) is one of the three options
    and the data has at least two columns; the instance then stores the
    arguments unchanged, the number of columns as its dimension and the name
    "Empirical".  With a valid smoothing mode and fewer than two columns the
    failure is the assertion 'Dimension must be >= 2'. *)
Theorem empirical_init_succeeds_iff (data : Matrix)
    (smoothing : option string) (ties : string) (offset : R) :
  let s := match smoothing with None => "none"%string | Some s => s end in
  (forall cop,
     __init__ data smoothing ties offset = Ok cop <->
     In s smoothing_options /\ (2 <= ncols data)%nat /\
     cop = {| _ties := ties; _offset := offset; _name := "Empirical";
              _smoothing := s; _data := data; _dim := ncols data |}) /\
  (In s smoothing_options -> (ncols data < 2)%nat ->
     __init__ data smoothing ties offset
       = Raise (AssertionError "Dimension must be >= 2")).
Proof.
  intros s. split.
  - intros cop. split; [apply init_inv|].
    intros (Hs & Hdim & ->).
    unfold __init__, set_ties. cbv beta iota delta [bind].
    rewrite (set_smoothing_ok smoothing Hs). fold s.
    unfold init_validate, assert. cbv beta iota zeta. simpl _dim.
    assert (E1 : Nat.ltb 1 (ncols data) = true) by (apply Nat.ltb_lt; lia).
    assert (E2 : Nat.leb 2 (ncols data) = true) by (apply Nat.leb_le; lia).
    rewrite E1, E2. reflexivity.
  - intros Hs Hdim.
    unfold __init__, set_ties. cbv beta iota delta [bind].
    rewrite (set_smoothing_ok smoothing Hs).
    unfold assert. cbv beta iota zeta.
    assert (E1 : Nat.ltb 1 (ncols data) = false) by (apply Nat.ltb_ge; lia).
    simpl Nat.eqb. cbv iota. rewrite E1. reflexivity.
Qed.

Lemma empirical_init_succeeds_iff_witness :
  __init__ sample_data None "min" (1 / 2)
    = Ok {| _ties := "min"; _offset := 1 / 2; _name := "Empirical";
            _smoothing := "none"; _data := sample_data; _dim := 2 |} /\
  __init__ {| ncols := 1; rows := [[1]; [2]] |} (Some "beta"%string) "min" 0
    = Raise (AssertionError "Dimension must be >= 2").
Proof.
  split.
  - apply (proj1 (empirical_init_succeeds_iff sample_data None "min" (1 / 2))).
    split; [simpl; tauto|]. split; [simpl; lia | reflexivity].
  - apply (proj2 (empirical_init_succeeds_iff
                    {| ncols := 1; rows := [[1]; [2]] |}
                    (Some "beta"%string) "min" 0)).
    + simpl. tauto.
    + simpl. lia.
Defined.

(** X11.  A copula constructed with any smoothing argument other than
    "beta" (in particular with none at all) has no density: every later call
    of [pdf] on it fails the assertion. *)
Theorem constructed_without_beta_has_no_pdf
    (beta_pdf beta_logpdf : R -> R -> R -> R) (log_sum : list R -> R)
    (data : Matrix) (smoothing : option string) (ties : string) (offset : R)
    (cop : EmpiricalCopula) (u : Matrix) (log : bool) :
  __init__ data smoothing ties offset = Ok cop ->
  smoothing <> Some "beta"%string ->
  pdf beta_pdf beta_logpdf log_sum cop u log
    = Raise (AssertionError
               "Empirical Copula only has density (PDF) for 'beta' smoothing").
Proof.
  intros Hinit Hs. apply init_inv in Hinit. destruct Hinit as (_ & _ & ->).
  unfold pdf. simpl _smoothing.
  destruct smoothing as [s|]; [|reflexivity].
  destruct (String.eqb s "beta") eqn:E; [|reflexivity].
  apply String.eqb_eq in E. subst s. contradiction.
Qed.

Lemma constructed_without_beta_has_no_pdf_witness :
  pdf beta_pdf_int beta_logpdf_int log_sum_exp (sample_copula "none")
      {| ncols := 2; rows := [[1 / 2; 1 / 2]] |} true
    = Raise (AssertionError
               "Empirical Copula only has density (PDF) for 'beta' smoothing").
Proof.
  apply (constructed_without_beta_has_no_pdf beta_pdf_int beta_logpdf_int
           log_sum_exp sample_data None "average" 0).
  - reflexivity.
  - discriminate.
Defined.

(** *** cdf *)

Section CdfMore.

Variable EPSILON : R.
Variable emp_dist_func : Matrix -> Matrix -> string -> R -> result (list R).

(** X12.  The comparisons of the domain check are strict: a query whose
    entries all lie in the closed interval [-EPSILON, 1 + EPSILON], end
    points included, passes it, and so does a query without entries. *)
Theorem cdf_check_is_inclusive (self : EmpiricalCopula) (u : Matrix)
    (log : bool) :
  Forall (fun x => - EPSILON <= x <= 1 + EPSILON) (entries u) ->
  cdf EPSILON emp_dist_func self u log = cdf_checked emp_dist_func self u log.
Proof.
  intros H. unfold cdf. now rewrite inside_unit_cube.
Qed.


End CdfMore.

Lemma cdf_check_is_inclusive_witness :
  cdf eps64 emp_dist_func_none (sample_copula "none")
      {| ncols := 2; rows := [[- eps64; 1 + eps64]] |} false
    = cdf_checked emp_dist_func_none (sample_copula "none")
        {| ncols := 2; rows := [[- eps64; 1 + eps64]] |} false.
Proof.
  apply cdf_check_is_inclusive.
  pose proof eps64_nonneg.
  unfold entries. cbn [rows concat app].
  repeat (constructor; [lra|]). constructor.
Defined.


(** *** More on pdf *)

Lemma pobs_nrows (obs u : Matrix) (ties : string) :
  pobs obs ties = Ok u -> nrows u = nrows obs.
Proof.
  unfold pobs. destruct (rank_data obs ties) as [dr|] eqn:E; [|discriminate].
  simpl. intros [= <-]. apply rank_data_nrows in E.
  unfold nrows, map_matrix in *. simpl. now rewrite length_map.
Qed.

(** *** The query enters pdf through its ranks only *)

Lemma filter_map {A B : Type} (p : B -> bool) (f : A -> B) (l : list A) :
  filter p (map f l) = map f (filter (fun a => p (f a)) l).
Proof.
  induction l as [|a t IH]; simpl; [reflexivity|].
  destruct (p (f a)); simpl; now rewrite IH.
Qed.

Lemma nodup_map_length (f : R -> R) (l : list R) :
  (forall x y, f x = f y -> x = y) ->
  length (nodup Req_dec_T (map f l)) = length (nodup Req_dec_T l).
Proof.
  intros Hinj. induction l as [|a t IH]; simpl; [reflexivity|].
  destruct (in_dec Req_dec_T (f a) (map f t)) as [Hin|Hin],
           (in_dec Req_dec_T a t) as [Hin'|Hin']; simpl; auto.
  - exfalso. apply in_map_iff in Hin. destruct Hin as (b & E & Hb).
    apply Hinj in E. subst b. contradiction.
  - exfalso. apply Hin. now apply in_map.
Qed.

Section Increasing.

Variable f : R -> R.
Hypothesis f_increasing : forall x y, x < y -> f x < f y.

Lemma increasing_le (x y : R) : x <= y -> f x <= f y.
Proof.
  intros [H| ->]; [left; now apply f_increasing | right; reflexivity].
Qed.

Lemma increasing_injective (x y : R) : f x = f y -> x = y.
Proof.
  intros E. destruct (Rtotal_order x y) as [H|[H|H]]; [|exact H|];
    apply f_increasing in H; lra.
Qed.

Lemma Rltb_increasing (x y : R) : Rltb (f x) (f y) = Rltb x y.
Proof.
  destruct (Rltb x y) eqn:E.
  - apply Rltb_true in E. apply Rltb_true. now apply f_increasing.
  - apply Rltb_false in E. apply Rltb_false. now apply increasing_le.
Qed.

Lemma Rleb_increasing (x y : R) : Rleb (f x) (f y) = Rleb x y.
Proof.
  destruct (Rleb x y) eqn:E.
  - apply Rleb_true in E. apply Rleb_true. now apply increasing_le.
  - apply Rleb_false in E. apply Rleb_false. now apply f_increasing.
Qed.

Lemma Reqb_increasing (x y : R) : Reqb (f x) (f y) = Reqb x y.
Proof.
  unfold Reqb. destruct (Req_dec_T (f x) (f y)) as [E|E],
                        (Req_dec_T x y) as [E'|E']; auto.
  - apply increasing_injective in E. contradiction.
  - subst. contradiction.
Qed.

(** A strictly increasing change of scale leaves every rank as it is. *)
Lemma rank_increasing (m : ties_method) (col : list R) (i : nat) (x : R) :
  rank m (map f col) i (f x) = rank m col i x.
Proof.
  assert (Hlt : count_lt (f x) (map f col) = count_lt x col).
  { unfold count_lt. rewrite filter_map, length_map. f_equal.
    apply filter_ext. intros y. apply Rltb_increasing. }
  assert (Hle : count_le (f x) (map f col) = count_le x col).
  { unfold count_le. rewrite filter_map, length_map. f_equal.
    apply filter_ext. intros y. apply Rleb_increasing. }
  assert (Heq : count_eq (f x) (firstn i (map f col))
                = count_eq x (firstn i col)).
  { unfold count_eq. rewrite firstn_map, filter_map, length_map. f_equal.
    apply filter_ext. intros y. apply Reqb_increasing. }
  assert (Hd : distinct_lt (f x) (map f col) = distinct_lt x col).
  { unfold distinct_lt. rewrite filter_map.
    rewrite nodup_map_length by exact increasing_injective. do 2 f_equal.
    apply filter_ext. intros y. apply Rltb_increasing. }
  destruct m; unfold rank; now rewrite ?Hlt, ?Hle, ?Heq, ?Hd.
Qed.

Lemma column_map_matrix (u : Matrix) (c : nat) :
  well_shaped u -> (c < ncols u)%nat ->
  column c (map_matrix f u) = map f (column c u).
Proof.
  intros Hshape Hc. unfold column, map_matrix. simpl. rewrite !map_map.
  apply map_ext_in. intros row Hrow.
  unfold well_shaped in Hshape. rewrite Forall_forall in Hshape.
  rewrite nth_indep with (d' := f 0)
    by (rewrite length_map, (Hshape row Hrow); exact Hc).
  apply map_nth.
Qed.

Lemma enumerate_map {A B : Type} (g : A -> B) (l : list A) :
  enumerate (map g l) = map (fun p => (fst p, g (snd p))) (enumerate l).
Proof.
  unfold enumerate. rewrite length_map. generalize 0%nat.
  induction l as [|a t IH]; intros s; simpl; [reflexivity|].
  now rewrite IH.
Qed.

Lemma rank_data_increasing (u : Matrix) (ties : string) :
  well_shaped u ->
  rank_data (map_matrix f u) ties = rank_data u ties.
Proof.
  intros Hshape. unfold rank_data.
  destruct (parse_ties ties) as [m|]; [|reflexivity].
  f_equal. f_equal. simpl rows at 1.
  rewrite enumerate_map, map_map. apply map_ext_in.
  intros (i & row) Hir. simpl.
  rewrite enumerate_map, map_map. apply map_ext_in.
  intros (c & x) Hcx. simpl.
  apply enumerate_In with (d := []) in Hir. destruct Hir as (Hi & Erow).
  apply enumerate_In with (d := 0) in Hcx. destruct Hcx as (Hc & _).
  assert (Hrow : In row (rows u)).
  { rewrite <- Erow. apply nth_In. exact Hi. }
  unfold well_shaped in Hshape. rewrite Forall_forall in Hshape.
  rewrite (Hshape row Hrow) in Hc.
  rewrite column_map_matrix by (assumption || (apply Forall_forall; assumption)).
  apply rank_increasing.
Qed.

(** X15.  The query reaches the density through its within-column ranks
    only: rescaling all its entries by a strictly increasing function
    changes neither branch of [pdf]. *)
Theorem pdf_depends_on_ranks_only
    (beta_pdf beta_logpdf : R -> R -> R -> R) (log_sum : list R -> R)
    (self : EmpiricalCopula) (u : Matrix) (log : bool) :
  well_shaped u ->
  pdf beta_pdf beta_logpdf log_sum self (map_matrix f u) log
    = pdf beta_pdf beta_logpdf log_sum self u log.
Proof.
  intros Hshape. unfold pdf, pobs.
  rewrite (rank_data_increasing u (_ties self) Hshape).
  unfold nrows, map_matrix. simpl. now rewrite length_map.
Qed.

End Increasing.

Lemma pdf_depends_on_ranks_only_witness :
  pdf beta_pdf_int beta_logpdf_int log_sum_exp (sample_copula "beta")
      (map_matrix (fun x => x / 2)
         {| ncols := 2; rows := [[1 / 5; 9 / 10]; [3 / 10; 1 / 2]] |}) false
  = pdf beta_pdf_int beta_logpdf_int log_sum_exp (sample_copula "beta")
      {| ncols := 2; rows := [[1 / 5; 9 / 10]; [3 / 10; 1 / 2]] |} false.
Proof.
  apply (pdf_depends_on_ranks_only (fun x => x / 2)).
  - intros x y H. lra.
  - repeat constructor.
Defined.

(** *** random *)

Lemma take_row_ok (rows : list (list R)) (i : Z) :
  (0 <= i < Z.of_nat (length rows))%Z ->
  take_row rows i = Ok (nth (Z.to_nat i) rows []).
Proof.
  intros H. unfold take_row.
  assert (E0 : (i <? 0)%Z = false) by (apply Z.ltb_ge; lia).
  assert (E1 : (0 <=? i)%Z = true) by (apply Z.leb_le; lia).
  assert (E2 : (i <? Z.of_nat (length rows))%Z = true) by (apply Z.ltb_lt; lia).
  now rewrite E0, E1, E2.
Qed.

Section RandomRows.

Variable rng : Type.
Variable np_seed : Z -> result rng.
Variable randint : rng -> Z -> Z -> Z -> result (list Z) * rng.

(** What [np.random.randint(low, high, size)] returns when it returns:
    [size] integers of the half-open interval [low, high). *)
Hypothesis randint_in_range :
  forall state low high n index,
    fst (randint state low high n) = Ok index ->
    length index = Z.to_nat n /\
    Forall (fun i => (low <= i < high)%Z) index.

(** X16.  Whatever the generator draws, a sample returned by [random] has
    [n] rows and the columns of the data, and each of its rows is a row of
    the data set.  [random] fails only when the seeding fails or the draw
    itself fails, with that exception; the indexing never fails.  A seed
    that numpy rejects makes the call raise numpy's exception and leaves the
    generator as it was. *)
Theorem random_draws_rows_of_data (self : EmpiricalCopula) (n : Z)
    (seed : option Z) (state : rng) :
  (forall m, fst (random rng np_seed randint self n seed state) = Ok m ->
     nrows m = Z.to_nat n /\ ncols m = ncols (_data self) /\
     Forall (fun row => In row (rows (_data self))) (rows m)) /\
  (forall e, fst (random rng np_seed randint self n seed state) = Raise e ->
     (exists s, seed = Some s /\ np_seed s = Raise e) \/
     (exists seeded,
        match seed with Some s => np_seed s | None => Ok state end
          = Ok seeded /\
        fst (randint seeded 0 (Z.of_nat (nrows (_data self))) n) = Raise e)) /\
  (forall s e, seed = Some s -> np_seed s = Raise e ->
     random rng np_seed randint self n seed state = (Raise e, state)).
Proof.
  assert (D : forall seeded,
            (forall m,
               (index <- fst (randint seeded 0
                                (Z.of_nat (nrows (_data self))) n) ;;
                take_rows (_data self) index) = Ok m ->
               nrows m = Z.to_nat n /\ ncols m = ncols (_data self) /\
               Forall (fun row => In row (rows (_data self))) (rows m)) /\
            (forall e,
               (index <- fst (randint seeded 0
                                (Z.of_nat (nrows (_data self))) n) ;;
                take_rows (_data self) index) = Raise e ->
               fst (randint seeded 0 (Z.of_nat (nrows (_data self))) n)
                 = Raise e)).
  { intros seeded.
    destruct (fst (randint seeded 0 (Z.of_nat (nrows (_data self))) n))
      as [index|e0] eqn:E.
    - destruct (randint_in_range _ _ _ _ _ E) as (Hlen & Hrange).
      assert (Hpick : mapM (take_row (rows (_data self))) index
                      = Ok (map (fun i => nth (Z.to_nat i) (rows (_data self)) [])
                                index)).
      { apply mapM_ok. intros i Hi. apply take_row_ok.
        rewrite Forall_forall in Hrange. exact (Hrange i Hi). }
      unfold take_rows, bind. rewrite Hpick. split; [|discriminate].
      intros m [= <-]. unfold nrows. simpl. rewrite length_map.
      split; [exact Hlen|]. split; [reflexivity|].
      apply Forall_forall. intros row Hrow. apply in_map_iff in Hrow.
      destruct Hrow as (i & <- & Hi). apply nth_In.
      rewrite Forall_forall in Hrange. specialize (Hrange i Hi).
      unfold nrows in Hrange. lia.
    - split; [discriminate|]. now intros e [= <-]. }
  unfold random.
  destruct seed as [s|]; [destruct (np_seed s) as [seeded|e0] eqn:Es|].
  - destruct (D seeded) as (D1 & D2). simpl fst.
    split; [exact D1|]. split.
    + intros e He. right. exists seeded.
      split; [reflexivity | now apply D2].
    + intros s' e [= <-] He. rewrite Es in He. discriminate.
  - simpl fst. split; [discriminate|]. split.
    + intros e [= <-]. left. exists s. split; [reflexivity | exact Es].
    + intros s' e [= <-] He. rewrite Es in He. now injection He as <-.
  - destruct (D state) as (D1 & D2). simpl fst.
    split; [exact D1|]. split; [|discriminate].
    intros e He. right. exists state. split; [reflexivity | now apply D2].
Qed.

End RandomRows.

Lemma counter_randint_in_range (state low high n : Z) (index : list Z) :
  fst (counter_randint state low high n) = Ok index ->
  length index = Z.to_nat n /\
  Forall (fun i => (low <= i < high)%Z) index.
Proof.
  unfold counter_randint.
  destruct (andb (low <? high)%Z (0 <=? n)%Z) eqn:E; [|discriminate].
  apply andb_true_iff in E. destruct E as (E & _). apply Z.ltb_lt in E.
  simpl. intros [= <-]. rewrite length_map, length_seq.
  split; [reflexivity|]. apply Forall_forall. intros i Hi.
  apply in_map_iff in Hi. destruct Hi as (k & <- & _).
  pose proof (Z.mod_pos_bound (state + Z.of_nat k) (high - low)). lia.
Qed.

(** The sample seeded with 10 returns three rows of the data; seeded with
    -1 the call raises what the seeding raises. *)
Lemma random_draws_rows_of_data_witness :
  (exists m,
     fst (random Z counter_seed counter_randint (sample_copula "none") 3
            (Some 10%Z) 0%Z) = Ok m /\
     nrows m = 3%nat /\
     Forall (fun row => In row (rows sample_data)) (rows m)) /\
  random Z counter_seed counter_randint (sample_copula "none") 3
    (Some (-1)%Z) 0%Z
  = (Raise (ValueError "Seed must be between 0 and 2**32 - 1"), 0%Z).
Proof.
  split.
  - eexists. split; [reflexivity|].
    destruct (random_draws_rows_of_data Z counter_seed counter_randint
                counter_randint_in_range (sample_copula "none") 3
                (Some 10%Z) 0%Z) as (H & _).
    destruct (H _ eq_refl) as (H1 & _ & H3). split; [exact H1 | exact H3].
  - destruct (random_draws_rows_of_data Z counter_seed counter_randint
                counter_randint_in_range (sample_copula "none") 3
                (Some (-1)%Z) 0%Z) as (_ & _ & H).
    apply (H (-1)%Z); reflexivity.
Defined.

Lemma map_const_length {A B : Type} (b : B) (l l' : list A) :
  length l = length l' -> map (fun _ => b) l = map (fun _ => b) l'.
Proof.
  revert l'. induction l as [|a t IH]; intros [|a' t'] H; simpl in *;
    try discriminate; [reflexivity|].
  f_equal. apply IH. lia.
Qed.

(** X18.  A query of a single row gets the same answer whatever the row
    holds: two one-row queries of the same width give the same result, in
    both branches of [pdf] and whether the call returns or raises. *)
Theorem pdf_single_row_constant
    (beta_pdf beta_logpdf : R -> R -> R -> R) (log_sum : list R -> R)
    (self : EmpiricalCopula) (row row' : list R) (k : nat) (log : bool) :
  length row = length row' ->
  pdf beta_pdf beta_logpdf log_sum self {| ncols := k; rows := [row] |} log
    = pdf beta_pdf beta_logpdf log_sum self {| ncols := k; rows := [row'] |} log.
Proof.
  intros Hlen. unfold pdf.
  destruct (parse_ties (_ties self)) as [m|] eqn:Em.
  - rewrite (pobs_single_row row k _ m Em), (pobs_single_row row' k _ m Em).
    now rewrite (map_const_length (1 / 2) row row' Hlen).
  - unfold pobs, rank_data. now rewrite Em.
Qed.

Lemma pdf_single_row_constant_witness :
  pdf beta_pdf_int beta_logpdf_int log_sum_exp (sample_copula "beta")
      {| ncols := 2; rows := [[1 / 100; 99 / 100]] |} true
  = pdf beta_pdf_int beta_logpdf_int log_sum_exp (sample_copula "beta")
      {| ncols := 2; rows := [[3 / 4; 1 / 4]] |} true.
Proof.
  apply pdf_single_row_constant. reflexivity.
Defined.

(** *** pdf and the range of binary64 *)

Lemma tiny_pos : 0 < tiny.
Proof. unfold tiny. apply Rinv_0_lt_compat. apply pow_lt. lra. Qed.


































(** *** [to_marginals] and the rounding of the product *)

Lemma inv_pow2_lt (a b : nat) : (a < b)%nat -> / 2 ^ b < / 2 ^ a.
Proof.
  intros H. apply Rinv_lt_contravar.
  - apply Rmult_lt_0_compat; apply pow_lt; lra.
  - apply Rlt_pow; [lra | exact H].
Qed.

Lemma tiny_lt_eps64 : tiny < eps64.
Proof. unfold tiny, eps64. apply inv_pow2_lt. lia. Qed.

Lemma eps64_pos : 0 < eps64.
Proof. unfold eps64. apply Rinv_0_lt_compat. apply pow_lt. lra. Qed.

Lemma eps64_lt_sixteenth : eps64 < / 16.
Proof.
  replace 16 with (2 ^ 4) by (simpl; lra).
  unfold eps64. apply inv_pow2_lt. lia.
Qed.

Lemma Rabs_le_bounds (x y : R) : Rabs x <= y -> - y <= x <= y.
Proof. unfold Rabs. destruct (Rcase_abs x); lra. Qed.

(** Exact arithmetic is one admissible rounding. *)
Lemma exact_rounding_error (r : R) :
  eps64 * Rabs r <= 1 -> Rabs (r - r) <= eps64 * Rabs r + tiny.
Proof.
  intros _. replace (r - r) with 0 by ring. rewrite Rabs_R0.
  pose proof tiny_pos. pose proof eps64_pos. pose proof (Rabs_pos r).
  assert (0 <= eps64 * Rabs r) by (apply Rmult_le_pos; lra). lra.
Qed.

Lemma nth_map_default {A B : Type} (f : A -> B) (l : list A) (c : nat)
    (d : A) (d' : B) :
  (c < length l)%nat -> nth c (map f l) d' = f (nth c l d).
Proof.
  intros H. rewrite (nth_indep _ d' (f d)) by (rewrite length_map; exact H).
  apply map_nth.
Qed.

Lemma take_inv (col : list R) (i : Z) (v : R) :
  take col i = Ok v -> v = nth (position (length col) i) col 0.
Proof.
  unfold take, position.
  destruct (andb _ _); [|discriminate]. now intros [= <-].
Qed.

Lemma mapM_ok_inv {A B : Type} (f : A -> result B) (g : A -> B)
    (l : list A) (ys : list B) :
  (forall x y, In x l -> f x = Ok y -> y = g x) ->
  mapM f l = Ok ys -> ys = map g l.
Proof.
  revert ys. induction l as [|a t IH]; intros ys Hg; simpl.
  - now intros [= <-].
  - destruct (f a) as [b|e] eqn:Ea; simpl; [|discriminate].
    destruct (mapM f t) as [bs|e] eqn:Et; simpl; [|discriminate].
    intros [= <-]. f_equal.
    + apply Hg; [now left | exact Ea].
    + apply IH; [|reflexivity]. intros x y Hx. apply Hg. now right.
Qed.

Lemma sorted_columns_nth (data : Matrix) (c : nat) (col : list R) :
  nth_error (sorted_columns data) c = Some col ->
  col = sort (column c data).
Proof.
  unfold sorted_columns. rewrite nth_error_map, nth_error_seq.
  destruct (Nat.ltb c (ncols data)); simpl; [|discriminate].
  now intros [= <-].
Qed.

Lemma entry_of_map_columns (g : nat -> R -> R) (u : Matrix) (i c : nat)
    (x : R) :
  well_shaped u ->
  entry u i c = Some x ->
  entry (of_columns (nrows u)
           (map (fun c => map (fun row => g c (nth c row 0)) (rows u))
                (seq 0 (ncols u)))) i c
    = Some (g c x).
Proof.
  intros Hshape Hx. unfold entry in Hx.
  destruct (nth_error (rows u) i) as [row|] eqn:Erow; [|discriminate].
  assert (Hi : (i < nrows u)%nat).
  { unfold nrows. apply nth_error_Some. now rewrite Erow. }
  assert (Hc : (c < ncols u)%nat).
  { unfold well_shaped in Hshape. rewrite Forall_forall in Hshape.
    rewrite <- (Hshape row) by (eapply nth_error_In; eassumption).
    apply nth_error_Some. now rewrite Hx. }
  rewrite (of_columns_entry _ _ i c
             (map (fun row => g c (nth c row 0)) (rows u)) Hi).
  - f_equal.
    rewrite (nth_error_nth _ _ 0
               (map_nth_error (fun row => g c (nth c row 0)) i (rows u) Erow)).
    now rewrite (nth_error_nth _ _ 0 Hx).
  - apply (map_nth_error
             (fun c0 => map (fun row => g c0 (nth c0 row 0)) (rows u))).
    rewrite nth_error_seq.
    assert (E : Nat.ltb c (ncols u) = true) by (apply Nat.ltb_lt; exact Hc).
    now rewrite E.
Qed.

Section RoundedMarginals.

(** The rounding of an exact result to binary64. *)
Variable fl : R -> R.

Lemma index_column_rounded (u : Matrix) (n c : nat) :
  well_shaped u -> (c < ncols u)%nat ->
  map (fun row => nth c row 0%Z)
      (map (map (fun x => floor (fl (x * INR n)))) (rows u))
    = map (fun row => floor (fl (nth c row 0 * INR n))) (rows u).
Proof.
  intros Hshape Hc. rewrite map_map. apply map_ext_in. intros row Hrow.
  apply (nth_map_default (fun x => floor (fl (x * INR n)))).
  unfold well_shaped in Hshape. rewrite Forall_forall in Hshape.
  now rewrite (Hshape row Hrow).
Qed.

(** What a call that returns has returned. *)
Lemma to_marginals_rounded_inv (self : EmpiricalCopula) (u m : Matrix) :
  well_shaped u ->
  to_marginals_rounded fl self u = Ok m ->
  m = of_columns (nrows u)
        (map (fun c => map (fun row =>
                              order_statistic_rounded fl (_data self) c
                                (nth c row 0))
                           (rows u))
             (seq 0 (ncols u))).
Proof.
  intros Hshape. unfold to_marginals_rounded.
  destruct (mapM _ (seq 0 (ncols u))) as [cols|e] eqn:E; simpl;
    [|discriminate].
  intros [= <-]. f_equal.
  refine (mapM_ok_inv _ _ _ _ _ E). intros c cs Hc Hlk. cbv beta in Hlk.
  apply in_seq in Hc. unfold lookup_column in Hlk.
  destruct (nth_error (sorted_columns (_data self)) c) as [col|] eqn:Ecol;
    [|discriminate].
  pose proof (sorted_columns_length _ _ _ Ecol) as Hlen.
  apply sorted_columns_nth in Ecol. subst col.
  rewrite index_column_rounded in Hlk by (assumption || lia).
  rewrite (mapM_ok_inv _ (fun i => nth (position (nrows (_data self)) i)
                                     (sort (column c (_data self))) 0)
             _ _ (fun i v _ H => eq_trans (take_inv _ i v H)
                                   (f_equal (fun k => nth (position k i) _ 0)
                                      Hlen))
             Hlk).
  now rewrite map_map.
Qed.

(** The call returns when every index lands in [-n, n). *)
Lemma to_marginals_rounded_ok (self : EmpiricalCopula) (u : Matrix) :
  well_shaped u ->
  (ncols u <= ncols (_data self))%nat ->
  Forall (fun x =>
            (- Z.of_nat (nrows (_data self))
             <= floor (fl (x * INR (nrows (_data self))))
             < Z.of_nat (nrows (_data self)))%Z) (entries u) ->
  to_marginals_rounded fl self u
    = Ok (of_columns (nrows u)
            (map (fun c => map (fun row =>
                                  order_statistic_rounded fl (_data self) c
                                    (nth c row 0))
                               (rows u))
                 (seq 0 (ncols u)))).
Proof.
  intros Hshape Hcols Hrange.
  destruct (to_marginals_rounded fl self u) as [m|e] eqn:E.
  - f_equal. now apply to_marginals_rounded_inv.
  - exfalso. unfold to_marginals_rounded in E.
    destruct (mapM _ (seq 0 (ncols u))) as [cols|e'] eqn:Em; simpl in E;
      [discriminate|].
    apply mapM_raise_inv in Em. destruct Em as (c & Hc & Hlk).
    apply in_seq in Hc. unfold lookup_column in Hlk.
    destruct (nth_error (sorted_columns (_data self)) c) as [col|] eqn:Ecol.
    + pose proof (sorted_columns_length _ _ _ Ecol) as Hlen.
      rewrite index_column_rounded in Hlk by (assumption || lia).
      apply mapM_raise_inv in Hlk. destruct Hlk as (i & Hi & Ht).
      apply in_map_iff in Hi. destruct Hi as (row & <- & Hrow).
      rewrite take_ok in Ht; [discriminate|]. rewrite Hlen.
      rewrite Forall_forall in Hrange. apply Hrange.
      unfold entries. apply in_concat. exists row. split; [exact Hrow|].
      apply nth_In. unfold well_shaped in Hshape.
      rewrite Forall_forall in Hshape. rewrite (Hshape row Hrow). lia.
    + apply nth_error_None in Ecol. unfold sorted_columns in Ecol.
      rewrite length_map, length_seq in Ecol. lia.
Qed.

(** The error of one rounding: relative, within the machine epsilon, and
    absolute, within half the smallest float, for results up to 2^52 in
    magnitude.  A result that is not negative is not rounded to a negative
    float. *)
Hypothesis fl_error :
  forall r, eps64 * Rabs r <= 1 -> Rabs (fl r - r) <= eps64 * Rabs r + tiny.
Hypothesis fl_nonneg : forall r, 0 <= r -> 0 <= fl r.

Lemma fl_close (r b : R) :
  Rabs r <= b -> eps64 * b <= / 8 ->
  r - / 4 < fl r < r + / 4.
Proof.
  intros Hr Hb.
  pose proof eps64_pos as He. pose proof tiny_lt_eps64 as Ht.
  pose proof eps64_lt_sixteenth as He16.
  assert (H1 : eps64 * Rabs r <= eps64 * b)
    by (apply Rmult_le_compat_l; lra).
  pose proof (fl_error r ltac:(lra)) as H.
  apply Rabs_le_bounds in H. lra.
Qed.

(** A product in the middle half of the cell [k, k + 1) keeps its floor. *)
Lemma floor_rounded_cell (r : R) (k : Z) :
  IZR k + / 4 <= r <= IZR k + 3 / 4 ->
  eps64 * (Rabs (IZR k) + 1) <= / 8 ->
  floor (fl r) = k.
Proof.
  intros Hr Hk.
  assert (Habs : Rabs r <= Rabs (IZR k) + 1).
  { unfold Rabs. destruct (Rcase_abs r), (Rcase_abs (IZR k)); lra. }
  pose proof (fl_close r _ Habs Hk) as H.
  pose proof (floor_between (fl r) k (k + 1)) as F.
  rewrite plus_IZR in F. assert (G : (k <= floor (fl r) < k + 1)%Z)
    by (apply F; lra).
  lia.
Qed.

(** X5.  On a well-shaped query whose coordinates lie in [0, 1 - 2^-51],
    against at least one and at most 2^49 rows of data with enough columns,
    [to_marginals] returns an array of the shape of the query, and each of
    its entries is a value observed in the matching column of the data,
    however the products are rounded. *)
Theorem to_marginals_returns_observed_values (self : EmpiricalCopula)
    (u : Matrix) :
  well_shaped u ->
  (ncols u <= ncols (_data self))%nat ->
  (0 < nrows (_data self))%nat ->
  eps64 * INR (nrows (_data self)) <= / 8 ->
  Forall (fun x => 0 <= x <= 1 - 2 * eps64) (entries u) ->
  exists m,
    to_marginals_rounded fl self u = Ok m /\
    nrows m = nrows u /\ ncols m = ncols u /\ well_shaped m /\
    forall i c x, entry u i c = Some x ->
      exists v, entry m i c = Some v /\ In v (column c (_data self)).
Proof.
  intros Hshape Hcols Hn Hsize Hrange.
  set (n := nrows (_data self)) in *.
  assert (HN : 1 <= INR n) by (apply (le_INR 1); lia).
  pose proof eps64_pos as He. pose proof tiny_lt_eps64 as Ht.
  pose proof tiny_pos as Ht0.
  assert (Hidx : forall x, 0 <= x <= 1 - 2 * eps64 ->
            (0 <= floor (fl (x * INR n)) < Z.of_nat n)%Z).
  { intros x Hx. apply floor_between. rewrite <- INR_IZR_INZ.
    assert (H0 : 0 <= x * INR n) by (apply Rmult_le_pos; lra).
    assert (H1 : x * INR n <= (1 - 2 * eps64) * INR n)
      by (apply Rmult_le_compat_r; lra).
    assert (H2 : eps64 * (x * INR n) <= eps64 * ((1 - 2 * eps64) * INR n))
      by (apply Rmult_le_compat_l; lra).
    assert (H3 : 0 <= eps64 * (eps64 * INR n))
      by (repeat apply Rmult_le_pos; lra).
    assert (H4 : eps64 * 1 <= eps64 * INR n)
      by (apply Rmult_le_compat_l; lra).
    replace (eps64 * ((1 - 2 * eps64) * INR n))
      with (eps64 * INR n - 2 * (eps64 * (eps64 * INR n))) in H2 by ring.
    replace ((1 - 2 * eps64) * INR n)
      with (INR n - 2 * (eps64 * INR n)) in H1 by ring.
    split; [apply fl_nonneg; exact H0|].
    assert (Hr : eps64 * Rabs (x * INR n) <= 1)
      by (rewrite Rabs_pos_eq by exact H0; lra).
    pose proof (fl_error _ Hr) as H. apply Rabs_le_bounds in H.
    rewrite Rabs_pos_eq in H by exact H0. lra. }
  eexists. split.
  - apply to_marginals_rounded_ok; [exact Hshape | exact Hcols |].
    fold n. eapply Forall_impl; [|exact Hrange].
    intros x Hx. cbv beta in Hx. specialize (Hidx x Hx). lia.
  - destruct (of_columns_shape (nrows u)
                (map (fun c => map (fun row =>
                                      order_statistic_rounded fl (_data self) c
                                        (nth c row 0))
                                   (rows u))
                     (seq 0 (ncols u)))) as (H1 & H2 & H3).
    rewrite length_map, length_seq in H2.
    split; [exact H1|]. split; [exact H2|]. split; [exact H3|].
    intros i c x Hx.
    exists (order_statistic_rounded fl (_data self) c x).
    split.
    + exact (entry_of_map_columns
               (order_statistic_rounded fl (_data self)) u i c x Hshape Hx).
    + rewrite Forall_forall in Hrange.
      specialize (Hidx x (Hrange x (entry_In _ _ _ _ Hx))).
      unfold order_statistic_rounded. fold n.
      rewrite position_nonneg by lia.
      apply sort_In. apply nth_In. rewrite sort_length, column_length.
      fold n. lia.
Qed.

(** X7.  At the lower edge, however the product is rounded: a coordinate
    with 0 <= x * n <= 1/2 is mapped to the smallest value of its data
    column; a negative coordinate with -3/4 <= x * n <= -1/4 gives index -1,
    which Python counts from the end, and is mapped to the largest value of
    the column. *)
Theorem to_marginals_lower_edge (self : EmpiricalCopula) (u m : Matrix)
    (i c : nat) (x v : R) :
  well_shaped u ->
  to_marginals_rounded fl self u = Ok m ->
  entry u i c = Some x -> entry m i c = Some v ->
  (0 <= x * INR (nrows (_data self)) <= 1 / 2 ->
     forall y, In y (column c (_data self)) -> v <= y) /\
  (- (3 / 4) <= x * INR (nrows (_data self)) <= - (1 / 4) ->
     forall y, In y (column c (_data self)) -> y <= v).
Proof.
  intros Hshape Hm Hx Hv.
  apply to_marginals_rounded_inv in Hm; [|exact Hshape]. subst m.
  rewrite (entry_of_map_columns
             (order_statistic_rounded fl (_data self)) u i c x Hshape Hx) in Hv.
  injection Hv as <-. unfold order_statistic_rounded.
  pose proof (sort_StronglySorted (column c (_data self))) as Hs.
  assert (Hlen : length (sort (column c (_data self))) = nrows (_data self))
    by (now rewrite sort_length, column_length).
  pose proof eps64_lt_sixteenth as He. pose proof eps64_pos as He0.
  split; intros Hedge y Hy;
    destruct (sorted_column_member _ _ _ Hy) as (j & Hj & <-).
  - assert (E : floor (fl (x * INR (nrows (_data self)))) = 0%Z).
    { assert (Habs : Rabs (x * INR (nrows (_data self))) <= 1)
        by (rewrite Rabs_pos_eq; lra).
      pose proof (fl_close _ 1 Habs ltac:(lra)) as H.
      pose proof (fl_nonneg _ (proj1 Hedge)) as H0.
      pose proof (floor_between (fl (x * INR (nrows (_data self)))) 0 1) as F.
      assert ((0 <= floor (fl (x * INR (nrows (_data self)))) < 1)%Z)
        by (apply F; lra).
      lia. }
    rewrite E. unfold position. simpl.
    apply StronglySorted_nth; [exact Hs | lia].
  - assert (E : floor (fl (x * INR (nrows (_data self)))) = (-1)%Z).
    { apply floor_rounded_cell; [lra|].
      replace (Rabs (-1)) with 1
        by (symmetry; rewrite Rabs_left by lra; lra).
      lra. }
    rewrite E.
    assert (P : position (nrows (_data self)) (-1)
                = (nrows (_data self) - 1)%nat)
      by (unfold position; change (-1 <? 0)%Z with true; cbv iota; lia).
    rewrite P. apply StronglySorted_nth; [exact Hs | lia].
Qed.

(** X9.  Round trip on the observations, however the product is rounded,
    against at most 2^49 rows of data: where x * n lies in the middle half
    of the cell [k, k + 1), with k the number of values of the data column
    below the observation y, the result holds y itself. *)
Theorem to_marginals_recovers_observation (self : EmpiricalCopula)
    (u m : Matrix) (i c : nat) (x y : R) :
  well_shaped u ->
  to_marginals_rounded fl self u = Ok m ->
  eps64 * INR (nrows (_data self)) <= / 8 ->
  In y (column c (_data self)) ->
  entry u i c = Some x ->
  INR (count_lt y (column c (_data self))) + / 4
    <= x * INR (nrows (_data self))
    <= INR (count_lt y (column c (_data self))) + 3 / 4 ->
  entry m i c = Some y.
Proof.
  intros Hshape Hm Hsize Hy Hx Hcell.
  pose proof (count_lt_member y _ Hy) as Hk. rewrite column_length in Hk.
  apply to_marginals_rounded_inv in Hm; [|exact Hshape]. subst m.
  rewrite (entry_of_map_columns
             (order_statistic_rounded fl (_data self)) u i c x Hshape Hx).
  f_equal. unfold order_statistic_rounded.
  set (k := count_lt y (column c (_data self))) in *.
  assert (E : floor (fl (x * INR (nrows (_data self)))) = Z.of_nat k).
  { apply floor_rounded_cell; rewrite <- INR_IZR_INZ; [exact Hcell|].
    rewrite Rabs_pos_eq by apply pos_INR.
    assert (INR k + 1 <= INR (nrows (_data self))).
    { rewrite <- S_INR. apply le_INR. lia. }
    pose proof eps64_pos.
    assert (eps64 * (INR k + 1) <= eps64 * INR (nrows (_data self)))
      by (apply Rmult_le_compat_l; lra).
    lra. }
  rewrite E, position_nonneg, Nat2Z.id by lia. unfold k.
  rewrite (count_lt_Permutation y _ _ (sort_Permutation (column c (_data self)))).
  apply sorted_nth_count_lt; [apply sort_StronglySorted | now apply sort_In].
Qed.

End RoundedMarginals.

Lemma sample_size_small : eps64 * INR (nrows sample_data) <= / 8.
Proof.
  replace (INR (nrows sample_data)) with 2 by (unfold nrows; simpl; lra).
  pose proof eps64_lt_sixteenth. lra.
Qed.

Lemma to_marginals_returns_observed_values_witness :
  exists m,
    to_marginals_rounded (fun r => r) (sample_copula "none")
      {| ncols := 2; rows := [[1 / 4; 1 / 2]; [3 / 4; 0]] |} = Ok m /\
    nrows m = 2%nat /\ ncols m = 2%nat.
Proof.
  destruct (to_marginals_returns_observed_values (fun r => r)
              exact_rounding_error (fun r H => H) (sample_copula "none")
              {| ncols := 2; rows := [[1 / 4; 1 / 2]; [3 / 4; 0]] |})
    as (m & H1 & H2 & H3 & _).
  - repeat constructor.
  - simpl. lia.
  - unfold nrows. simpl. lia.
  - exact sample_size_small.
  - pose proof eps64_lt_sixteenth. pose proof eps64_pos.
    unfold entries. cbn [rows concat app]. repeat constructor; lra.
  - exists m. auto.
Defined.

(** A slightly negative coordinate returns a value at least as large as
    both values of the first column of the sample. *)
Lemma to_marginals_lower_edge_witness :
  10 <= order_statistic sample_data 0 (- (1 / 4)) /\
  30 <= order_statistic sample_data 0 (- (1 / 4)).
Proof.
  assert (B : - (3 / 4) <= - (1 / 4) * INR (nrows sample_data) <= - (1 / 4))
    by (unfold nrows; simpl; lra).
  assert (H : forall y, In y (column 0 sample_data) ->
                y <= order_statistic sample_data 0 (- (1 / 4))).
  { eapply (to_marginals_lower_edge (fun r => r) exact_rounding_error
              (fun r H => H) (sample_copula "none")
              {| ncols := 1; rows := [[- (1 / 4)]] |} _ 0 0 (- (1 / 4)));
      [ .. | exact B].
    - repeat constructor.
    - apply (to_marginals_ok (sample_copula "none")
               {| ncols := 1; rows := [[- (1 / 4)]] |}).
      + simpl. lia.
      + unfold nrows. simpl. lia.
      + simpl. repeat constructor; lra.
    - reflexivity.
    - reflexivity. }
  split; apply H; simpl; tauto.
Defined.

(** Asking for 3/4 on the first column of the sample, where one value lies
    below 30, returns 30. *)
Lemma to_marginals_recovers_observation_witness :
  entry (of_columns 1
           (map (fun c => map (fun row =>
                                 order_statistic sample_data c (nth c row 0))
                              [[3 / 4]])
                (seq 0 1))) 0 0
    = Some 30.
Proof.
  eapply (to_marginals_recovers_observation (fun r => r) exact_rounding_error
            (sample_copula "none") {| ncols := 1; rows := [[3 / 4]] |}
            _ 0 0 (3 / 4) 30).
  - repeat constructor.
  - apply (to_marginals_ok (sample_copula "none")
             {| ncols := 1; rows := [[3 / 4]] |}).
    + simpl. lia.
    + unfold nrows. simpl. lia.
    + simpl. repeat constructor; lra.
  - exact sample_size_small.
  - simpl. tauto.
  - reflexivity.
  - unfold count_lt, column, nrows. simpl. decide_comparisons. simpl. lra.
Defined.

End EmpiricalFacts.

(** ** Stirling numbers *)

Module SpecialFuncFacts.
Import Py SpecialFunc.

Open Scope Z_scope.

Lemma sum_upto_ext (f g : nat -> Z) (n : nat) :
  (forall k, (k <= n)%nat -> f k = g k) -> sum_upto f n = sum_upto g n.
Proof.
  induction n as [|n IH]; intros H; simpl.
  - apply H. lia.
  - rewrite IH by (intros; apply H; lia). rewrite H by lia. reflexivity.
Qed.

Lemma sum_upto_S (f : nat -> Z) (n : nat) :
  sum_upto f (S n) = sum_upto f n + f (S n).
Proof. reflexivity. Qed.

Lemma sum_upto_shift (f : nat -> Z) (n : nat) :
  sum_upto f (S n) = f O + sum_upto (fun k => f (S k)) n.
Proof.
  induction n as [|n IH]; [reflexivity|].
  change (sum_upto f (S (S n))) with (sum_upto f (S n) + f (S (S n))).
  rewrite IH. simpl. lia.
Qed.

Lemma sum_upto_plus (f g : nat -> Z) (n : nat) :
  sum_upto (fun k => f k + g k) n = sum_upto f n + sum_upto g n.
Proof. induction n as [|n IH]; simpl; [reflexivity | rewrite IH; lia]. Qed.

Lemma sum_upto_scale (a : Z) (f : nat -> Z) (n : nat) :
  sum_upto (fun k => a * f k) n = a * sum_upto f n.
Proof. induction n as [|n IH]; simpl; [reflexivity | rewrite IH; lia]. Qed.

(** There is no permutation of [n] elements with more than [n] cycles, and
    no partition of an [n]-set into more than [n] blocks. *)
Lemma first_kind_above (n k : nat) : (n < k)%nat -> first_kind n k = 0.
Proof.
  revert k. induction n as [|n IH]; intros k Hk.
  - destruct k; [lia | reflexivity].
  - destruct k as [|k]; [lia|]. simpl first_kind.
    rewrite (IH k), (IH (S k)) by lia. lia.
Qed.

Lemma second_kind_above (n k : nat) : (n < k)%nat -> second_kind n k = 0.
Proof.
  revert k. induction n as [|n IH]; intros k Hk.
  - destruct k; [lia | reflexivity].
  - destruct k as [|k]; [lia|]. simpl second_kind.
    rewrite (IH k), (IH (S k)) by lia. lia.
Qed.

Lemma first_kind_zero (n : nat) : Z.of_nat n * first_kind n 0 = 0.
Proof. destruct n; reflexivity. Qed.

Lemma first_kind_step (n k : nat) :
  first_kind (S n) (S k) = first_kind n k + Z.of_nat n * first_kind n (S k).
Proof. reflexivity. Qed.

Lemma second_kind_step (n k : nat) :
  second_kind (S n) (S k)
    = second_kind n k + Z.of_nat (S k) * second_kind n (S k).
Proof. reflexivity. Qed.

Lemma pow_S (x : Z) (k : nat) : x ^ Z.of_nat (S k) = x * x ^ Z.of_nat k.
Proof. rewrite Nat2Z.inj_succ. apply Z.pow_succ_r. lia. Qed.

(** The numbers of the first kind are the coefficients of the rising
    factorial. *)
Lemma first_kind_rising (n : nat) (x : Z) :
  sum_upto (fun k => first_kind n k * x ^ Z.of_nat k) n = rising x n.
Proof.
  induction n as [|n IH]; [reflexivity|].
  rewrite sum_upto_shift.
  rewrite (sum_upto_ext _
             (fun k => x * (first_kind n k * x ^ Z.of_nat k)
                       + Z.of_nat n
                         * (first_kind n (S k) * x ^ Z.of_nat (S k)))).
  2:{ intros k _. rewrite first_kind_step, pow_S. ring. }
  rewrite sum_upto_plus, !sum_upto_scale, IH.
  assert (E : sum_upto (fun k => first_kind n (S k) * x ^ Z.of_nat (S k)) n
              = rising x n - first_kind n 0).
  { pose proof (sum_upto_shift
                  (fun k => first_kind n k * x ^ Z.of_nat k) n) as H.
    simpl sum_upto in H at 1. rewrite IH in H.
    rewrite (first_kind_above n (S n)) in H by lia.
    change (Z.of_nat 0) with 0 in H. rewrite Z.pow_0_r in H. lia. }
  rewrite E. simpl rising. simpl first_kind.
  pose proof (first_kind_zero n). nia.
Qed.

(** The numbers of the second kind express a power in falling factorials. *)
Lemma second_kind_falling (n : nat) (x : Z) :
  sum_upto (fun k => second_kind n k * falling x k) n = x ^ Z.of_nat n.
Proof.
  induction n as [|n IH]; [reflexivity|].
  rewrite sum_upto_shift.
  rewrite (sum_upto_ext _
             (fun k => x * (second_kind n k * falling x k)
                       + (Z.of_nat (S k) * (second_kind n (S k)
                                              * falling x (S k))
                          - Z.of_nat k * (second_kind n k * falling x k)))).
  2:{ intros k _. rewrite second_kind_step. simpl falling. ring. }
  rewrite sum_upto_plus, sum_upto_scale, IH.
  assert (E : forall m,
            sum_upto (fun k => Z.of_nat (S k) * (second_kind n (S k)
                                                   * falling x (S k))
                               - Z.of_nat k * (second_kind n k * falling x k)) m
            = Z.of_nat (S m) * (second_kind n (S m) * falling x (S m))).
  { induction m as [|m IHm]; [simpl; lia|].
    rewrite sum_upto_S, IHm. lia. }
  rewrite E, (second_kind_above n (S n)) by lia.
  rewrite pow_S. simpl second_kind. lia.
Qed.

Lemma in_range_nat (n k : nat) :
  (k <= n)%nat -> in_range (Z.of_nat n) (Z.of_nat k) = true.
Proof.
  intros H. unfold in_range. apply andb_true_iff.
  split; apply Z.leb_le; lia.
Qed.

Lemma stirling_first_nat (n k : nat) :
  (k <= n)%nat ->
  stirling_first (Z.of_nat n) (Z.of_nat k) = Ok (first_kind n k).
Proof.
  intros H. unfold stirling_first. rewrite (in_range_nat n k H). simpl.
  now rewrite !Nat2Z.id.
Qed.

Lemma stirling_second_nat (n k : nat) :
  (k <= n)%nat ->
  stirling_second (Z.of_nat n) (Z.of_nat k) = Ok (second_kind n k).
Proof.
  intros H. unfold stirling_second. rewrite (in_range_nat n k H). simpl.
  now rewrite !Nat2Z.id.
Qed.

(** C9.  For 0 <= k <= n both functions return; the returned numbers are
    the canonical ones (their rows are the coefficients of the rising
    factorial, respectively the coordinates of x^n in the falling
    factorials); and the values listed by the tests come out, as integers. *)
Theorem stirling_canonical_values :
  (forall n k : nat, (k <= n)%nat ->
     stirling_first (Z.of_nat n) (Z.of_nat k) = Ok (first_kind n k) /\
     stirling_second (Z.of_nat n) (Z.of_nat k) = Ok (second_kind n k)) /\
  (forall (n : nat) (x : Z),
     sum_upto (fun k => value (stirling_first (Z.of_nat n) (Z.of_nat k))
                        * x ^ Z.of_nat k) n
       = rising x n) /\
  (forall (n : nat) (x : Z),
     sum_upto (fun k => value (stirling_second (Z.of_nat n) (Z.of_nat k))
                        * falling x k) n
       = x ^ Z.of_nat n) /\
  stirling_first 5 3 = Ok 35 /\
  stirling_first 8 4 = Ok 6769 /\
  stirling_second 5 3 = Ok 25 /\
  stirling_second 8 4 = Ok 1701 /\
  stirling_first_all 7 = Ok [720; 1764; 1624; 735; 175; 21; 1] /\
  stirling_second_all 7 = Ok [1; 63; 301; 350; 140; 21; 1].
Proof.
  split; [|split; [|split]].
  - intros n k H. split; [now apply stirling_first_nat
                         | now apply stirling_second_nat].
  - intros n x. rewrite <- first_kind_rising. apply sum_upto_ext.
    intros k Hk. now rewrite stirling_first_nat.
  - intros n x. rewrite <- second_kind_falling. apply sum_upto_ext.
    intros k Hk. now rewrite stirling_second_nat.
  - repeat split; reflexivity.
Qed.

Lemma stirling_canonical_values_witness :
  stirling_first 7 2 = Ok 1764 /\ stirling_second 6 5 = Ok 15.
Proof.
  destruct stirling_canonical_values as (H & _).
  split.
  - exact (proj1 (H 7%nat 2%nat ltac:(lia))).
  - exact (proj2 (H 6%nat 5%nat ltac:(lia))).
Defined.

(** The remaining rows of the test tables, and the range check. *)
Example stirling_test_table :
  stirling_first 8 5 = Ok 1960 /\
  stirling_second 8 5 = Ok 1050 /\
  stirling_first_all 8 = Ok [5040; 13068; 13132; 6769; 1960; 322; 28; 1] /\
  stirling_second_all 8 = Ok [1; 127; 966; 1701; 1050; 266; 28; 1] /\
  stirling_first 4 6 = Raise (ValueError range_msg) /\
  stirling_second 4 (-1) = Raise (ValueError range_msg).
Proof. repeat split; reflexivity. Qed.

End SpecialFuncFacts.
